(** * Prank relay server: room registry and message-forwarding protocol

    A shallow embedding of the WebSocket relay (the multi-client variant,
    whose rooms hold an array [clients], and the single-client variant,
    whose rooms hold one [client] slot) together with the properties of
    the join / relay / disconnect protocol.

    Conventions of the embedding:
    - a socket object [ws] is a [Handle]; object identity ([===]) is
      equality of handles;
    - the global [rooms] Map and the per-connection closure variable
      [clientInfo] live in an explicit [World], threaded by a small
      state-and-exception monad [M];
    - [ws.send] is an effect that may throw; whether it throws for a given
      socket is decided by an oracle [fails], a parameter of every handler;
      every attempt is appended to the [log] with its outcome;
    - [console.log] calls are dropped, except that the evaluation of their
      arguments is kept where it can throw;
    - the events are the messages and the closings of connections (opening
      one only declares [clientInfo = null], an [error] event only logs); an
      exception that escapes a listener is uncaught and ends the process. *)

From stdpp Require Import gmap strings list fin_maps.

Local Open Scope string_scope.
Local Open Scope nat_scope.
Local Open Scope list_scope.

(** ** Parsed JSON and property access *)

(** The result of [JSON.parse].  The numeric value of a number is never
    inspected by the server. *)
#[warnings="-register-all"]
Inductive JSON : Type :=
| JNull
| JBool (b : bool)
| JNum (n : Z)
| JStr (s : string)
| JArr (items : list JSON)
| JObj (fields : list (string * JSON)).

(** A JavaScript value as the handlers see it: [None] is [undefined]. *)
Definition JSValue : Type := option JSON.

Inductive Exn : Type := TypeError | SyntaxError | SendError.

Inductive Result (A : Type) : Type :=
| Ok (a : A)
| Throw (e : Exn).
Arguments Ok {A} a.
Arguments Throw {A} e.

(** Own property [k] of a parsed object; [fields] lists its properties,
    each key once. *)
Fixpoint field (k : string) (fields : list (string * JSON)) : JSValue :=
  match fields with
  | [] => None
  | (k', v) :: rest => if String.eqb k k' then Some v else field k rest
  end.

(** [v.k] for the keys the server reads ([type], [roomCode], [payload]):
    a TypeError on [undefined] and [null], the own property on an object,
    [undefined] on every other value. *)
Definition prop (v : JSValue) (k : string) : Result JSValue :=
  match v with
  | None => Throw TypeError
  | Some JNull => Throw TypeError
  | Some (JObj fields) => Ok (field k fields)
  | Some _ => Ok None
  end.

(** Whether [String(j)] returns for a parsed value [j].  A primitive always
    converts.  An object converts through [Object.prototype.toString] unless
    it has an own property [toString]: that property is a JSON value, hence
    not callable, and [valueOf] (own, not callable, or inherited, returning
    the object itself) yields no primitive either.  An array converts through
    [join], which converts every element that is not [null]. *)
Fixpoint converts_to_string (j : JSON) : bool :=
  match j with
  | JNull | JBool _ | JNum _ | JStr _ => true
  | JArr items => forallb converts_to_string items
  | JObj fields =>
      match field "toString" fields with
      | None => true
      | Some _ => false
      end
  end.

(** The conversion a template literal applies to [v]; a TypeError when no
    primitive can be obtained.  The text itself only goes to the console and
    is not kept. *)
Definition ToString (v : JSValue) : Result unit :=
  match v with
  | None => Ok tt
  | Some j => if converts_to_string j then Ok tt else Throw TypeError
  end.

(** ** The monad of handlers: state, and exceptions that keep the state *)

Definition Eff (S A : Type) : Type := S -> Result A * S.

Definition ret {S A} (a : A) : Eff S A := fun w => (Ok a, w).

Definition bind {S A B} (m : Eff S A) (k : A -> Eff S B) : Eff S B := fun w =>
  match m w with
  | (Ok a, w') => k a w'
  | (Throw e, w') => (Throw e, w')
  end.

Definition throw {S A} (e : Exn) : Eff S A := fun w => (Throw e, w).

Definition lift {S A} (r : Result A) : Eff S A := fun w => (r, w).

(** [try { body } catch (error) { handler }] *)
Definition try_catch {S A} (body : Eff S A) (handler : Exn -> Eff S A) : Eff S A := fun w =>
  match body w with
  | (Ok a, w') => (Ok a, w')
  | (Throw e, w') => handler e w'
  end.

Declare Scope js_scope.
Delimit Scope js_scope with js.
Notation "'do' x <- m ; k" := (bind m (fun x => k))
  (at level 10, x name, m at level 99, k at level 200) : js_scope.
Notation "m ;; k" := (bind m (fun _ => k))
  (at level 100, k at level 200, right associativity) : js_scope.
Open Scope js_scope.

(** ** Data model *)

Definition Handle : Type := nat.

(** A room object [{ sender, clients }]; [sender = None] is [null]. *)
Record Room : Type := mkRoom {
  sender : option Handle;
  clients : list Handle
}.

Inductive Role : Type := role_sender | role_client.

Global Instance Role_eq_dec : EqDecision Role.
Proof. solve_decision. Defined.

(** The closure variable [clientInfo] once assigned:
    [{ type, roomCode }] for a sender, [{ type, roomCode, ws }] for a
    client ([ci_ws = None] is the missing property). *)
Record ClientInfo : Type := mkClientInfo {
  ci_type : Role;
  ci_roomCode : string;
  ci_ws : option Handle
}.

(** Messages the server sends.  Where the source interpolates a number
    into the [message] text, the constructor carries that number. *)
Inductive Outgoing : Type :=
| error (message : string)
| pong
| client_count (count : nat)
| target_acquired (n : nat)
| waiting_for_target
| connected
| prank_message (payload : JSValue)
| prank_delivered (deliveredCount total : nat)
| sender_disconnected
| target_update (n : nat)
| target_lost.

(** One call of [send] on socket [to]; [delivered = false] when it threw. *)
Record Attempt : Type := mkAttempt {
  to : Handle;
  msg : Outgoing;
  delivered : bool
}.

Record World : Type := mkWorld {
  rooms : gmap string Room;
  clientInfo : gmap Handle ClientInfo;
  log : list Attempt
}.

Definition init : World := mkWorld ∅ ∅ [].

Definition PRANK_ROOM_CODE : string := "PRANK_ROOM_XYZ123_SECRET".

(** The handlers of the multi-client server run over [World]. *)
Definition M (A : Type) : Type := Eff World A.

(** *** Primitive reads and writes of the store *)

Definition rooms_has (roomCode : string) : M bool := fun w =>
  (Ok (bool_decide (is_Some (rooms w !! roomCode))), w).

Definition rooms_get (roomCode : string) : M (option Room) := fun w =>
  (Ok (rooms w !! roomCode), w).

Definition rooms_set (roomCode : string) (room : Room) : M unit := fun w =>
  (Ok tt, mkWorld (<[roomCode := room]> (rooms w)) (clientInfo w) (log w)).

Definition rooms_delete (roomCode : string) : M unit := fun w =>
  (Ok tt, mkWorld (delete roomCode (rooms w)) (clientInfo w) (log w)).

(** [room.f] where [room = rooms.get(roomCode)]: the object is shared with
    the Map, so the read goes through the entry; on [undefined] it is a
    TypeError. *)
Definition room_read {A} (roomCode : string) (f : Room -> A) : M A := fun w =>
  match rooms w !! roomCode with
  | Some room => (Ok (f room), w)
  | None => (Throw TypeError, w)
  end.

(** [room.f = v] and [room.clients.push / splice]: an in-place update of the
    object stored under [roomCode]. *)
Definition room_write (roomCode : string) (upd : Room -> Room) : M unit := fun w =>
  match rooms w !! roomCode with
  | Some room => (Ok tt, mkWorld (<[roomCode := upd room]> (rooms w)) (clientInfo w) (log w))
  | None => (Throw TypeError, w)
  end.

(** [roomCode !== PRANK_ROOM_CODE] is false only for that very string. *)
Definition valid_roomCode (roomCode : JSValue) : option string :=
  match roomCode with
  | Some (JStr code) => if String.eqb code PRANK_ROOM_CODE then Some code else None
  | _ => None
  end.

Section Connection.

(** The oracle of this event and the socket of this connection. *)
Variable fails : Handle -> bool.
Variable ws : Handle.

Definition send (target : Handle) (m : Outgoing) : M unit := fun w =>
  if fails target
  then (Throw SendError, mkWorld (rooms w) (clientInfo w) (log w ++ [mkAttempt target m false]))
  else (Ok tt, mkWorld (rooms w) (clientInfo w) (log w ++ [mkAttempt target m true])).

(** Reading and assigning the closure variable of this connection. *)
Definition get_clientInfo : M (option ClientInfo) := fun w =>
  (Ok (clientInfo w !! ws), w).

Definition set_clientInfo (info : ClientInfo) : M unit := fun w =>
  (Ok tt, mkWorld (rooms w) (<[ws := info]> (clientInfo w)) (log w)).

Definition broadcastClientCount (roomCode : string) : M unit :=
  do room <- rooms_get roomCode;
  match room with
  | None => ret tt
  | Some room =>
      match sender room with
      | None => ret tt
      | Some s => send s (client_count (length (clients room)))
      end
  end.

Definition handleSenderJoin (message : JSValue) : M unit :=
  do roomCode <- lift (prop message "roomCode");
  match valid_roomCode roomCode with
  | None => send ws (error "Invalid room code")
  | Some roomCode =>
      do has <- rooms_has roomCode;
      (if has then ret tt else rooms_set roomCode (mkRoom None []));;
      room_write roomCode (fun room => mkRoom (Some ws) (clients room));;
      set_clientInfo (mkClientInfo role_sender roomCode None);;
      broadcastClientCount roomCode;;
      do n <- room_read roomCode (fun room => length (clients room));
      if 0 <? n
      then send ws (target_acquired n)
      else send ws waiting_for_target
  end.

Definition handleClientJoin (message : JSValue) : M unit :=
  do roomCode <- lift (prop message "roomCode");
  match valid_roomCode roomCode with
  | None => send ws (error "Invalid room code")
  | Some roomCode =>
      do has <- rooms_has roomCode;
      (if has then ret tt else rooms_set roomCode (mkRoom None []));;
      room_write roomCode (fun room => mkRoom (sender room) (clients room ++ [ws]));;
      set_clientInfo (mkClientInfo role_client roomCode (Some ws));;
      send ws connected;;
      broadcastClientCount roomCode;;
      do s <- room_read roomCode sender;
      match s with
      | Some s =>
          do n <- room_read roomCode (fun room => length (clients room));
          send s (target_acquired n)
      | None => ret tt
      end
  end.

(** The body of [room.clients.forEach] in [handlePrankMessage], with the
    captured counter [deliveredCount] as accumulator. *)
Fixpoint forEach_prank (payload : JSValue) (cs : list Handle) (deliveredCount : nat) : M nat :=
  match cs with
  | [] => ret deliveredCount
  | client :: rest =>
      do deliveredCount <-
        try_catch
          (send client (prank_message payload);; ret (S deliveredCount))
          (fun _ => ret deliveredCount);
      forEach_prank payload rest deliveredCount
  end.

Definition handlePrankMessage (message : JSValue) : M unit :=
  do info <- get_clientInfo;
  match info with
  | Some (mkClientInfo role_sender roomCode _) =>
      do room <- rooms_get roomCode;
      match room with
      | None => send ws (error "No targets connected")
      | Some room =>
          if length (clients room) =? 0
          then send ws (error "No targets connected")
          else
            do payload <- lift (prop message "payload");
            do type <- lift (prop payload "type");
            lift (ToString type);;
            do cs <- room_read roomCode clients;
            do deliveredCount <- forEach_prank payload cs 0;
            do total <- room_read roomCode (fun room => length (clients room));
            send ws (prank_delivered deliveredCount total)
      end
  | _ => send ws (error "Only senders can send prank messages")
  end.

(** The body of [room.clients.forEach] in [handleDisconnection]. *)
Fixpoint forEach_sender_disconnected (cs : list Handle) : M unit :=
  match cs with
  | [] => ret tt
  | client :: rest =>
      try_catch (send client sender_disconnected) (fun _ => ret tt);;
      forEach_sender_disconnected rest
  end.

(** [cs.findIndex(client => client === target)]; [None] is [-1], and an
    [undefined] target equals no socket. *)
Fixpoint findIndex (target : option Handle) (cs : list Handle) : option nat :=
  match cs with
  | [] => None
  | client :: rest =>
      if bool_decide (Some client = target) then Some 0
      else S <$> findIndex target rest
  end.

(** [clientInfo.ws] as the callback of [findIndex] reads it: once per
    client it is called on, so not at all over an empty array; a TypeError
    when [clientInfo] is [null]. *)
Definition clientInfo_ws (cs : list Handle) : M (option Handle) :=
  do current <- get_clientInfo;
  match current, cs with
  | Some current, _ => ret (ci_ws current)
  | None, [] => ret None
  | None, _ :: _ => throw TypeError
  end.

(** [cs.splice(i, 1)] *)
Definition splice (i : nat) (cs : list Handle) : list Handle :=
  take i cs ++ drop (S i) cs.

Definition handleDisconnection (info : ClientInfo) : M unit :=
  let roomCode := ci_roomCode info in
  do room <- rooms_get roomCode;
  match room with
  | None => ret tt
  | Some _ =>
      match ci_type info with
      | role_sender =>
          room_write roomCode (fun room => mkRoom None (clients room));;
          do cs <- room_read roomCode clients;
          forEach_sender_disconnected cs
      | role_client =>
          do cs <- room_read roomCode clients;
          do target <- clientInfo_ws cs;
          match findIndex target cs with
          | Some clientIndex =>
              room_write roomCode (fun room => mkRoom (sender room) (splice clientIndex (clients room)))
          | None => ret tt
          end;;
          broadcastClientCount roomCode;;
          do s <- room_read roomCode sender;
          match s with
          | Some s =>
              do n <- room_read roomCode (fun room => length (clients room));
              if 0 <? n
              then send s (target_update n)
              else send s target_lost
          | None => ret tt
          end
      end;;
      do s <- room_read roomCode sender;
      do n <- room_read roomCode (fun room => length (clients room));
      match s with
      | None => if n =? 0 then rooms_delete roomCode else ret tt
      | Some _ => ret tt
      end
  end.

(** [JSON.parse(data.toString())]: [None] is a text that is not JSON. *)
Definition JSON_parse (data : option JSON) : M JSValue :=
  match data with
  | Some j => ret (Some j)
  | None => throw SyntaxError
  end.

(** The [switch (message.type)] of the message handler. *)
Definition dispatch (message : JSValue) (type : JSValue) : M unit :=
  match type with
  | Some (JStr t) =>
      if String.eqb t "sender_join" then handleSenderJoin message
      else if String.eqb t "client_join" then handleClientJoin message
      else if String.eqb t "prank_message" then handlePrankMessage message
      else if String.eqb t "ping" then send ws pong
      else ret tt
  | _ => ret tt
  end.

(** [ws.on('message', ...)] *)
Definition on_message (data : option JSON) : M unit :=
  try_catch
    (do message <- JSON_parse data;
     do type <- lift (prop message "type");
     dispatch message type)
    (fun _ => ret tt).

(** [ws.on('close', ...)] *)
Definition on_close : M unit :=
  do info <- get_clientInfo;
  match info with
  | Some info => handleDisconnection info
  | None => ret tt
  end.

End Connection.

(** ** The event loop *)

Inductive Event : Type :=
| Message (ws : Handle) (data : option JSON)
| Close (ws : Handle).

Definition Oracle : Type := Handle -> bool.

(** The listener an event triggers. *)
Definition listener (fails : Oracle) (e : Event) : M unit :=
  match e with
  | Message ws data => on_message fails ws data
  | Close ws => on_close fails ws
  end.

(** One event run to completion.  An exception that leaves a listener is
    uncaught: the process terminates ([None]). *)
Definition step (fails : Oracle) (e : Event) (w : World) : option World :=
  match listener fails e w with
  | (Ok _, w') => Some w'
  | (Throw _, _) => None
  end.

Fixpoint run (trace : list (Oracle * Event)) (w : World) : option World :=
  match trace with
  | [] => Some w
  | (fails, e) :: rest =>
      match step fails e w with
      | Some w' => run rest w'
      | None => None
      end
  end.

Definition reachable (w : World) : Prop :=
  exists trace, run trace init = Some w.

(** ** Building messages *)

Definition sender_join (roomCode : string) : option JSON :=
  Some (JObj [("type", JStr "sender_join"); ("roomCode", JStr roomCode)]).

Definition client_join (roomCode : string) : option JSON :=
  Some (JObj [("type", JStr "client_join"); ("roomCode", JStr roomCode)]).

Definition prank (payload : JSON) : option JSON :=
  Some (JObj [("type", JStr "prank_message"); ("payload", payload)]).

Definition all_ok : Oracle := fun _ => false.

(** ** Reading the store from outside the monad *)

(** [room.clients] of the room stored under [roomCode], empty when there is
    no such room. *)
Definition targets (w : World) (roomCode : string) : list Handle :=
  match rooms w !! roomCode with
  | Some room => clients room
  | None => []
  end.

(** [room.sender] of the room stored under [roomCode]. *)
Definition controller (w : World) (roomCode : string) : option Handle :=
  match rooms w !! roomCode with
  | Some room => sender room
  | None => None
  end.

(** The role a message makes the server record: [sender_join] and
    [client_join] carrying the room code, nothing else. *)
Definition join_role (data : option JSON) : option Role :=
  match data with
  | Some (JObj fields) =>
      match field "type" fields, valid_roomCode (field "roomCode" fields) with
      | Some (JStr t), Some _ =>
          if String.eqb t "sender_join" then Some role_sender
          else if String.eqb t "client_join" then Some role_client
          else None
      | _, _ => None
      end
  | _ => None
  end.

(** What the [console.log] of [handlePrankMessage] evaluates before the
    fan-out: the read of [payload.type] and its conversion to a string by the
    template literal.  Either can throw. *)
Definition log_line (payload : JSValue) : Result unit :=
  match prop payload "type" with
  | Ok type => ToString type
  | Throw e => Throw e
  end.

(** What [findIndex] followed by [splice] leaves of [cs]. *)
Definition without (target : option Handle) (cs : list Handle) : list Handle :=
  match findIndex target cs with
  | Some clientIndex => splice clientIndex cs
  | None => cs
  end.

(** The world after the attempts [l] were appended to the log. *)
Definition logged (w : World) (l : list Attempt) : World :=
  mkWorld (rooms w) (clientInfo w) (log w ++ l).

(** An attempt on [h] under the oracle. *)
Definition attempt (fails : Oracle) (h : Handle) (m : Outgoing) : Attempt :=
  mkAttempt h m (negb (fails h)).

(** The world a successful [sender_join] on [ws] leaves, whatever the sends
    do. *)
Definition sender_joined (ws : Handle) (w : World) (l : list Attempt) : World :=
  mkWorld
    (<[PRANK_ROOM_CODE := mkRoom (Some ws) (targets w PRANK_ROOM_CODE)]> (rooms w))
    (<[ws := mkClientInfo role_sender PRANK_ROOM_CODE None]> (clientInfo w))
    (log w ++ l).

(** The world a successful [client_join] on [ws] leaves, whatever the sends
    do. *)
Definition client_joined (ws : Handle) (w : World) (l : list Attempt) : World :=
  mkWorld
    (<[PRANK_ROOM_CODE := mkRoom (controller w PRANK_ROOM_CODE)
                                 (targets w PRANK_ROOM_CODE ++ [ws])]> (rooms w))
    (<[ws := mkClientInfo role_client PRANK_ROOM_CODE (Some ws)]> (clientInfo w))
    (log w ++ l).

(** Sends that succeed among the sockets [cs]. *)
Definition delivered_count (fails : Oracle) (cs : list Handle) : nat :=
  length (filter (fun c => fails c = false) cs).

(** The registry once the room under [roomCode] holds [room]: an empty
    room is dropped. *)
Definition settle (roomCode : string) (room : Room) (rs : gmap string Room) : gmap string Room :=
  match sender room, clients room with
  | None, [] => delete roomCode rs
  | _, _ => <[roomCode := room]> rs
  end.

(** The room a departing connection leaves behind. *)
Definition departed (info : ClientInfo) (room : Room) : Room :=
  match ci_type info with
  | role_sender => mkRoom None (clients room)
  | role_client => mkRoom (sender room) (without (ci_ws info) (clients room))
  end.

(** The registry after the close listener of connection [ws] ran. *)
Definition rooms_after_close (ws : Handle) (w : World) : gmap string Room :=
  match clientInfo w !! ws with
  | None => rooms w
  | Some info =>
      match rooms w !! ci_roomCode info with
      | None => rooms w
      | Some room => settle (ci_roomCode info) (departed info room) (rooms w)
      end
  end.

(** Two worlds with the same registry and the same sessions. *)
Definition same_store (w w' : World) : Prop :=
  rooms w' = rooms w /\ clientInfo w' = clientInfo w.

(** ** Protocol rejections *)

(** [rejected w ws fields text]: in world [w], the message with these fields
    arriving on [ws] is a protocol violation, to be answered with the error
    [text]. *)
Inductive rejected (w : World) (ws : Handle) (fields : list (string * JSON)) : string -> Prop :=
| rejected_sender_join :
    field "type" fields = Some (JStr "sender_join") ->
    field "roomCode" fields <> Some (JStr PRANK_ROOM_CODE) ->
    rejected w ws fields "Invalid room code"
| rejected_client_join :
    field "type" fields = Some (JStr "client_join") ->
    field "roomCode" fields <> Some (JStr PRANK_ROOM_CODE) ->
    rejected w ws fields "Invalid room code"
| rejected_not_sender :
    field "type" fields = Some (JStr "prank_message") ->
    ci_type <$> clientInfo w !! ws <> Some role_sender ->
    rejected w ws fields "Only senders can send prank messages"
| rejected_no_targets info :
    field "type" fields = Some (JStr "prank_message") ->
    clientInfo w !! ws = Some info ->
    ci_type info = role_sender ->
    targets w (ci_roomCode info) = [] ->
    rejected w ws fields "No targets connected".

(** ** Scenarios *)




(** ** Invariants of the registry *)

(** The secret is the only key, in the registry and in the sessions. *)
Definition only_secret (w : World) : Prop :=
  (forall roomCode, is_Some (rooms w !! roomCode) -> roomCode = PRANK_ROOM_CODE) /\
  (forall h info, clientInfo w !! h = Some info -> ci_roomCode info = PRANK_ROOM_CODE).

(** Every room of the registry has a sender or a client. *)
Definition occupied (w : World) : Prop :=
  forall roomCode room,
    rooms w !! roomCode = Some room -> sender room <> None \/ clients room <> [].

(** A session recorded by [client_join] remembers its own socket. *)
Definition client_ws (w : World) : Prop :=
  forall h info,
    clientInfo w !! h = Some info -> ci_type info = role_client -> ci_ws info = Some h.

(** [h] sits in the sender slot of [room] or among its clients. *)
Definition occupies (h : Handle) (room : Room) : Prop :=
  sender room = Some h \/ h ∈ clients room.

(** The discipline the handlers do not enforce: a join that the server
    accepts arrives on a connection whose [clientInfo] is still [null]. *)
Definition first_join (w : World) (e : Event) : Prop :=
  match e with
  | Message ws data => join_role data <> None -> clientInfo w !! ws = None
  | Close _ => True
  end.

Fixpoint joins_once (trace : list (Oracle * Event)) (w : World) : Prop :=
  match trace with
  | [] => True
  | (fails, e) :: rest =>
      first_join w e /\
      match step fails e w with
      | Some w' => joins_once rest w'
      | None => True
      end
  end.

(** Every socket held by a room has the session of the role it is held in. *)
Definition roles_consistent (w : World) : Prop :=
  forall roomCode room,
    rooms w !! roomCode = Some room ->
    (forall s, sender room = Some s ->
               ci_type <$> clientInfo w !! s = Some role_sender) /\
    (forall c, c ∈ clients room ->
               ci_type <$> clientInfo w !! c = Some role_client) /\
    NoDup (clients room).

(** Concrete worlds used to exercise the theorems. *)
Definition after (trace : list (Oracle * Event)) : World :=
  default init (run trace init).

Definition sender0_alone : World :=
  after [(all_ok, Message 0 (sender_join PRANK_ROOM_CODE))].

Definition sender0_client1 : World :=
  after [(all_ok, Message 0 (sender_join PRANK_ROOM_CODE));
         (all_ok, Message 1 (client_join PRANK_ROOM_CODE))].

Definition sender0_clients123 : World :=
  after [(all_ok, Message 0 (sender_join PRANK_ROOM_CODE));
         (all_ok, Message 1 (client_join PRANK_ROOM_CODE));
         (all_ok, Message 2 (client_join PRANK_ROOM_CODE));
         (all_ok, Message 3 (client_join PRANK_ROOM_CODE))].

Definition sender0_rejoined_as_client : World :=
  after [(all_ok, Message 0 (sender_join PRANK_ROOM_CODE));
         (all_ok, Message 0 (client_join PRANK_ROOM_CODE))].

Definition sender0_rejoined_twice : World :=
  after [(all_ok, Message 0 (sender_join PRANK_ROOM_CODE));
         (all_ok, Message 0 (client_join PRANK_ROOM_CODE));
         (all_ok, Message 0 (client_join PRANK_ROOM_CODE))].

Definition joins_then_leave : list (Oracle * Event) :=
  [(all_ok, Message 0 (sender_join PRANK_ROOM_CODE));
   (all_ok, Message 1 (client_join PRANK_ROOM_CODE));
   (all_ok, Message 2 (client_join PRANK_ROOM_CODE));
   (all_ok, Close 1)].

Definition relay_once : list (Oracle * Event) :=
  [(all_ok, Message 0 (sender_join PRANK_ROOM_CODE));
   (all_ok, Message 1 (client_join PRANK_ROOM_CODE));
   (all_ok, Message 0 (prank (JStr "boo")))].

Definition three_joined : list (Oracle * Event) :=
  [(all_ok, Message 0 (sender_join PRANK_ROOM_CODE));
   (all_ok, Message 1 (client_join PRANK_ROOM_CODE));
   (all_ok, Message 2 (client_join PRANK_ROOM_CODE))].

(** The oracle under which the sends to [h], and only they, throw. *)
Definition fails_only (h : Handle) : Oracle := fun c => Nat.eqb c h.

(** ** Messages the switch does not handle *)

(** [message.type] when the data parsed to an object whose [type] is a
    string. *)
Definition message_type (data : option JSON) : option string :=
  match data with
  | Some (JObj fields) =>
      match field "type" fields with
      | Some (JStr t) => Some t
      | _ => None
      end
  | _ => None
  end.

(** The four [case] labels of the switch. *)
Definition known_type (t : string) : bool :=
  String.eqb t "sender_join" || String.eqb t "client_join" ||
  String.eqb t "prank_message" || String.eqb t "ping".

(** ** Who is sent a payload *)

(** [a] is the send of a relayed payload. *)
Definition is_prank (a : Attempt) : Prop :=
  exists payload, msg a = prank_message payload.

(** Every socket a room holds has a session. *)
Definition members_joined (w : World) : Prop :=
  forall roomCode room h,
    rooms w !! roomCode = Some room -> occupies h room -> is_Some (clientInfo w !! h).

(** In [trace], connection [h] sent a join message whose [roomCode] is the
    secret. *)
Definition presented_secret (trace : list (Oracle * Event)) (h : Handle) : Prop :=
  exists fails fields,
    (fails, Message h (Some (JObj fields))) ∈ trace /\
    (field "type" fields = Some (JStr "sender_join") \/
     field "type" fields = Some (JStr "client_join")) /\
    field "roomCode" fields = Some (JStr PRANK_ROOM_CODE).

(** ** The health check *)

(** The body of [app.get('/')]: [now] is [new Date().toISOString()]. *)
Record Health : Type := mkHealth {
  status : string;
  activeRooms : nat;
  timestamp : string
}.

Definition health (now : string) (w : World) : Health :=
  mkHealth "Prank Relay Server Online" (size (rooms w)) now.

(** * The single-client variant

    The other server of the repository keeps one [client] slot per room
    instead of an array, sends no counts, and guards none of its sends to
    the peer.  The embedding shares the values, the monad and the events of
    the multi-client server. *)

(** A property of the state that a computation keeps, whether it returns or
    throws. *)
Definition preserves {S A : Type} (P : S -> Prop) (m : Eff S A) : Prop :=
  forall w, P w -> P (snd (m w)).

Module Single.

Record Room : Type := mkRoom {
  sender : option Handle;
  client : option Handle
}.

(** [clientInfo = { type, roomCode }] *)
Record ClientInfo : Type := mkClientInfo {
  ci_type : Role;
  ci_roomCode : string
}.

Inductive Outgoing : Type :=
| error (message : string)
| pong
| target_acquired
| waiting_for_target
| connected
| prank_message (payload : JSValue)
| prank_delivered
| sender_disconnected
| target_lost.

Record Attempt : Type := mkAttempt {
  to : Handle;
  msg : Outgoing;
  delivered : bool
}.

Record World : Type := mkWorld {
  rooms : gmap string Room;
  clientInfo : gmap Handle ClientInfo;
  log : list Attempt
}.

Definition init : World := mkWorld ∅ ∅ [].

Definition M (A : Type) : Type := Eff World A.

Definition rooms_has (roomCode : string) : M bool := fun w =>
  (Ok (bool_decide (is_Some (rooms w !! roomCode))), w).

Definition rooms_get (roomCode : string) : M (option Room) := fun w =>
  (Ok (rooms w !! roomCode), w).

Definition rooms_set (roomCode : string) (room : Room) : M unit := fun w =>
  (Ok tt, mkWorld (<[roomCode := room]> (rooms w)) (clientInfo w) (log w)).

Definition rooms_delete (roomCode : string) : M unit := fun w =>
  (Ok tt, mkWorld (delete roomCode (rooms w)) (clientInfo w) (log w)).

(** [room.f] and [room.f = v] through the entry stored under [roomCode]. *)
Definition room_read {A} (roomCode : string) (f : Room -> A) : M A := fun w =>
  match rooms w !! roomCode with
  | Some room => (Ok (f room), w)
  | None => (Throw TypeError, w)
  end.

Definition room_write (roomCode : string) (upd : Room -> Room) : M unit := fun w =>
  match rooms w !! roomCode with
  | Some room => (Ok tt, mkWorld (<[roomCode := upd room]> (rooms w)) (clientInfo w) (log w))
  | None => (Throw TypeError, w)
  end.

Section Connection.

Variable fails : Handle -> bool.
Variable ws : Handle.

Definition send (target : Handle) (m : Outgoing) : M unit := fun w =>
  if fails target
  then (Throw SendError, mkWorld (rooms w) (clientInfo w) (log w ++ [mkAttempt target m false]))
  else (Ok tt, mkWorld (rooms w) (clientInfo w) (log w ++ [mkAttempt target m true])).

Definition get_clientInfo : M (option ClientInfo) := fun w =>
  (Ok (clientInfo w !! ws), w).

Definition set_clientInfo (info : ClientInfo) : M unit := fun w =>
  (Ok tt, mkWorld (rooms w) (<[ws := info]> (clientInfo w)) (log w)).

Definition handleSenderJoin (message : JSValue) : M unit :=
  do roomCode <- lift (prop message "roomCode");
  match valid_roomCode roomCode with
  | None => send ws (error "Invalid room code")
  | Some roomCode =>
      do has <- rooms_has roomCode;
      (if has then ret tt else rooms_set roomCode (mkRoom None None));;
      room_write roomCode (fun room => mkRoom (Some ws) (client room));;
      set_clientInfo (mkClientInfo role_sender roomCode);;
      do c <- room_read roomCode client;
      match c with
      | Some _ => send ws target_acquired
      | None => send ws waiting_for_target
      end
  end.

Definition handleClientJoin (message : JSValue) : M unit :=
  do roomCode <- lift (prop message "roomCode");
  match valid_roomCode roomCode with
  | None => send ws (error "Invalid room code")
  | Some roomCode =>
      do has <- rooms_has roomCode;
      (if has then ret tt else rooms_set roomCode (mkRoom None None));;
      room_write roomCode (fun room => mkRoom (sender room) (Some ws));;
      set_clientInfo (mkClientInfo role_client roomCode);;
      send ws connected;;
      do s <- room_read roomCode sender;
      match s with
      | Some s => send s target_acquired
      | None => ret tt
      end
  end.

Definition handlePrankMessage (message : JSValue) : M unit :=
  do info <- get_clientInfo;
  match info with
  | Some (mkClientInfo role_sender roomCode) =>
      do room <- rooms_get roomCode;
      match room with
      | None => send ws (error "No target connected")
      | Some room =>
          match client room with
          | None => send ws (error "No target connected")
          | Some _ =>
              do payload <- lift (prop message "payload");
              lift (prop payload "type");;
              do c <- room_read roomCode client;
              match c with
              | Some c => send c (prank_message payload)
              | None => throw TypeError
              end;;
              send ws prank_delivered
          end
      end
  | _ => send ws (error "Only senders can send prank messages")
  end.

Definition handleDisconnection (info : ClientInfo) : M unit :=
  let roomCode := ci_roomCode info in
  do room <- rooms_get roomCode;
  match room with
  | None => ret tt
  | Some _ =>
      match ci_type info with
      | role_sender =>
          room_write roomCode (fun room => mkRoom None (client room));;
          do c <- room_read roomCode client;
          match c with
          | Some c => send c sender_disconnected
          | None => ret tt
          end
      | role_client =>
          room_write roomCode (fun room => mkRoom (sender room) None);;
          do s <- room_read roomCode sender;
          match s with
          | Some s => send s target_lost
          | None => ret tt
          end
      end;;
      do s <- room_read roomCode sender;
      do c <- room_read roomCode client;
      match s, c with
      | None, None => rooms_delete roomCode
      | _, _ => ret tt
      end
  end.

Definition JSON_parse (data : option JSON) : M JSValue :=
  match data with
  | Some j => ret (Some j)
  | None => throw SyntaxError
  end.

Definition dispatch (message : JSValue) (type : JSValue) : M unit :=
  match type with
  | Some (JStr t) =>
      if String.eqb t "sender_join" then handleSenderJoin message
      else if String.eqb t "client_join" then handleClientJoin message
      else if String.eqb t "prank_message" then handlePrankMessage message
      else if String.eqb t "ping" then send ws pong
      else ret tt
  | _ => ret tt
  end.

Definition on_message (data : option JSON) : M unit :=
  try_catch
    (do message <- JSON_parse data;
     do type <- lift (prop message "type");
     dispatch message type)
    (fun _ => ret tt).

Definition on_close : M unit :=
  do info <- get_clientInfo;
  match info with
  | Some info => handleDisconnection info
  | None => ret tt
  end.

End Connection.

Definition listener (fails : Oracle) (e : Event) : M unit :=
  match e with
  | Message ws data => on_message fails ws data
  | Close ws => on_close fails ws
  end.

Definition step (fails : Oracle) (e : Event) (w : World) : option World :=
  match listener fails e w with
  | (Ok _, w') => Some w'
  | (Throw _, _) => None
  end.

Fixpoint run (trace : list (Oracle * Event)) (w : World) : option World :=
  match trace with
  | [] => Some w
  | (fails, e) :: rest =>
      match step fails e w with
      | Some w' => run rest w'
      | None => None
      end
  end.

Definition reachable (w : World) : Prop :=
  exists trace, run trace init = Some w.

(** The secret is the only key of the registry. *)
Definition only_secret (w : World) : Prop :=
  forall roomCode, is_Some (rooms w !! roomCode) -> roomCode = PRANK_ROOM_CODE.

Definition joins : list (Oracle * Event) :=
  [(all_ok, Message 0 (sender_join PRANK_ROOM_CODE));
   (all_ok, Message 1 (client_join PRANK_ROOM_CODE))].

Definition both_joined : World := default init (run joins init).

End Single.

(** ** Reading the single-client registry *)

(** [room.sender] and [room.client] of the room stored under [roomCode]. *)
Definition single_sender (w : Single.World) (roomCode : string) : option Handle :=
  match Single.rooms w !! roomCode with
  | Some room => Single.sender room
  | None => None
  end.

Definition single_client (w : Single.World) (roomCode : string) : option Handle :=
  match Single.rooms w !! roomCode with
  | Some room => Single.client room
  | None => None
  end.

(** Every room of the single-client registry has a sender or a client. *)
Definition single_occupied (w : Single.World) : Prop :=
  forall roomCode room,
    Single.rooms w !! roomCode = Some room ->
    Single.sender room <> None \/ Single.client room <> None.

Definition single_two_clients : list (Oracle * Event) :=
  [(all_ok, Message 0 (sender_join PRANK_ROOM_CODE));
   (all_ok, Message 1 (client_join PRANK_ROOM_CODE));
   (all_ok, Message 2 (client_join PRANK_ROOM_CODE))].

(** * Proofs *)

Ltac exec :=
  cbv beta iota delta
    [bind ret throw lift try_catch rooms_has rooms_get rooms_set rooms_delete
     room_read room_write send get_clientInfo set_clientInfo
     broadcastClientCount handleSenderJoin handleClientJoin handlePrankMessage
     handleDisconnection on_message on_close JSON_parse dispatch prop
     logged attempt];
  cbn [rooms clientInfo log sender clients ci_type ci_roomCode ci_ws negb
       length Nat.eqb].

Ltac steps :=
  repeat (progress (exec; rewrite ?lookup_insert_eq, ?insert_insert_eq)).

Section Dispatch.

Variable fails : Oracle.
Variable ws : Handle.
Variable fields : list (string * JSON).
Variable w : World.

Let message : JSValue := Some (JObj fields).

Lemma on_message_sender_join :
  field "type" fields = Some (JStr "sender_join") ->
  on_message fails ws (Some (JObj fields)) w =
  try_catch (handleSenderJoin fails ws message) (fun _ => ret tt) w.
Proof.
  intros Ht. unfold on_message, JSON_parse, try_catch, bind, ret, lift, prop, dispatch.
  rewrite Ht. reflexivity.
Qed.

Lemma on_message_client_join :
  field "type" fields = Some (JStr "client_join") ->
  on_message fails ws (Some (JObj fields)) w =
  try_catch (handleClientJoin fails ws message) (fun _ => ret tt) w.
Proof.
  intros Ht. unfold on_message, JSON_parse, try_catch, bind, ret, lift, prop, dispatch.
  rewrite Ht. reflexivity.
Qed.

Lemma on_message_prank_message :
  field "type" fields = Some (JStr "prank_message") ->
  on_message fails ws (Some (JObj fields)) w =
  try_catch (handlePrankMessage fails ws message) (fun _ => ret tt) w.
Proof.
  intros Ht. unfold on_message, JSON_parse, try_catch, bind, ret, lift, prop, dispatch.
  rewrite Ht. reflexivity.
Qed.

End Dispatch.

Lemma valid_roomCode_Some v code :
  valid_roomCode v = Some code <-> v = Some (JStr PRANK_ROOM_CODE) /\ code = PRANK_ROOM_CODE.
Proof.
  unfold valid_roomCode. split.
  - destruct v as [[| | |s| |]|]; try discriminate.
    destruct (String.eqb s PRANK_ROOM_CODE) eqn:E; [|discriminate].
    apply String.eqb_eq in E. intros [= <-]. subst s. done.
  - intros [-> ->]. reflexivity.
Qed.

Lemma valid_roomCode_None v :
  valid_roomCode v = None <-> v <> Some (JStr PRANK_ROOM_CODE).
Proof.
  split.
  - intros H ->. discriminate H.
  - intros H. destruct (valid_roomCode v) as [code|] eqn:E; [|done].
    apply valid_roomCode_Some in E as [-> _]. done.
Qed.

Section Handlers.

Variable fails : Oracle.
Variable ws : Handle.

Lemma send_eq h m w :
  send fails h m w =
  (if fails h then Throw SendError else Ok tt, logged w [attempt fails h m]).
Proof. unfold send, logged, attempt. destruct (fails h); reflexivity. Qed.

Lemma handleSenderJoin_invalid fields w :
  field "roomCode" fields <> Some (JStr PRANK_ROOM_CODE) ->
  handleSenderJoin fails ws (Some (JObj fields)) w =
  send fails ws (error "Invalid room code") w.
Proof.
  intros H. apply valid_roomCode_None in H.
  unfold handleSenderJoin, bind, lift, prop. rewrite H. reflexivity.
Qed.

Lemma handleClientJoin_invalid fields w :
  field "roomCode" fields <> Some (JStr PRANK_ROOM_CODE) ->
  handleClientJoin fails ws (Some (JObj fields)) w =
  send fails ws (error "Invalid room code") w.
Proof.
  intros H. apply valid_roomCode_None in H.
  unfold handleClientJoin, bind, lift, prop. rewrite H. reflexivity.
Qed.

Lemma handleSenderJoin_valid fields w :
  field "roomCode" fields = Some (JStr PRANK_ROOM_CODE) ->
  let n := length (targets w PRANK_ROOM_CODE) in
  handleSenderJoin fails ws (Some (JObj fields)) w =
  if fails ws
  then (Throw SendError, sender_joined ws w [mkAttempt ws (client_count n) false])
  else (Ok tt, sender_joined ws w
                 [mkAttempt ws (client_count n) true;
                  mkAttempt ws (if 0 <? n then target_acquired n else waiting_for_target) true]).
Proof.
  intros Hc n. subst n. unfold sender_joined, targets.
  unfold handleSenderJoin. unfold bind at 1. unfold lift, prop. rewrite Hc.
  change (valid_roomCode _) with (Some PRANK_ROOM_CODE).
  exec.
  destruct (rooms w !! PRANK_ROOM_CODE) as [room|] eqn:E.
  - rewrite bool_decide_eq_true_2 by eauto. rewrite E. steps.
    destruct (fails ws); steps; [reflexivity|].
    destruct (0 <? length (clients room)); steps; rewrite <- ?app_assoc; reflexivity.
  - rewrite bool_decide_eq_false_2 by (intros [? ?]; done). steps.
    destruct (fails ws); steps; change (0 <? 0) with false; steps;
      rewrite <- ?app_assoc; reflexivity.
Qed.

Lemma handleClientJoin_valid fields w :
  field "roomCode" fields = Some (JStr PRANK_ROOM_CODE) ->
  let n := length (targets w PRANK_ROOM_CODE ++ [ws]) in
  handleClientJoin fails ws (Some (JObj fields)) w =
  if fails ws
  then (Throw SendError, client_joined ws w [mkAttempt ws connected false])
  else
    match controller w PRANK_ROOM_CODE with
    | None => (Ok tt, client_joined ws w [mkAttempt ws connected true])
    | Some s =>
        if fails s
        then (Throw SendError,
              client_joined ws w [mkAttempt ws connected true;
                               mkAttempt s (client_count n) false])
        else (Ok tt,
              client_joined ws w [mkAttempt ws connected true;
                               mkAttempt s (client_count n) true;
                               mkAttempt s (target_acquired n) true])
    end.
Proof.
  intros Hc n. subst n. unfold client_joined, targets, controller.
  unfold handleClientJoin. unfold bind at 1. unfold lift, prop. rewrite Hc.
  change (valid_roomCode _) with (Some PRANK_ROOM_CODE).
  exec.
  destruct (rooms w !! PRANK_ROOM_CODE) as [[s cs]|] eqn:E.
  - rewrite bool_decide_eq_true_2 by eauto. rewrite E. steps.
    destruct (fails ws); steps; [reflexivity|].
    destruct s as [s|]; steps; [|reflexivity].
    destruct (fails s) eqn:Es; steps; rewrite ?Es; steps;
      rewrite <- ?app_assoc; reflexivity.
  - rewrite bool_decide_eq_false_2 by (intros [? ?]; done). steps.
    destruct (fails ws); steps; reflexivity.
Qed.

Lemma forEach_prank_eq payload cs d w :
  forEach_prank fails payload cs d w =
  (Ok (d + delivered_count fails cs),
   logged w (map (fun c => attempt fails c (prank_message payload)) cs)).
Proof.
  revert d w. induction cs as [|c cs IH]; intros d w.
  - cbn. unfold ret, logged, delivered_count. cbn. rewrite app_nil_r, Nat.add_0_r.
    destruct w; reflexivity.
  - cbn [forEach_prank]. unfold bind at 1. unfold try_catch, bind, ret.
    rewrite send_eq. unfold delivered_count. rewrite filter_cons.
    destruct (fails c) eqn:Ec.
    + rewrite IH. unfold logged, attempt. cbn [rooms clientInfo log map].
      rewrite decide_False by done. rewrite Ec. cbn [negb].
      rewrite <- app_assoc. reflexivity.
    + rewrite IH. unfold logged, attempt. cbn [rooms clientInfo log map].
      rewrite decide_True by done. rewrite Ec. cbn [negb length].
      rewrite <- app_assoc. unfold delivered_count.
      rewrite Nat.add_succ_r. reflexivity.
Qed.

Lemma handlePrankMessage_not_sender message w :
  ci_type <$> clientInfo w !! ws <> Some role_sender ->
  handlePrankMessage fails ws message w =
  send fails ws (error "Only senders can send prank messages") w.
Proof.
  intros H. unfold handlePrankMessage, bind, get_clientInfo.
  destruct (clientInfo w !! ws) as [[[] rc h]|]; try reflexivity.
  cbn in H. done.
Qed.

Lemma handlePrankMessage_no_targets message w info :
  clientInfo w !! ws = Some info ->
  ci_type info = role_sender ->
  targets w (ci_roomCode info) = [] ->
  handlePrankMessage fails ws message w =
  send fails ws (error "No targets connected") w.
Proof.
  intros Hi Ht Hcs. unfold handlePrankMessage, bind, get_clientInfo, rooms_get.
  rewrite Hi. destruct info as [ty rc h]. cbn in Ht, Hcs. subst ty.
  unfold targets in Hcs.
  destruct (rooms w !! rc) as [room|]; [|reflexivity].
  rewrite Hcs. reflexivity.
Qed.

Lemma handlePrankMessage_throws fields w info :
  clientInfo w !! ws = Some info ->
  ci_type info = role_sender ->
  targets w (ci_roomCode info) <> [] ->
  field "payload" fields = None \/ field "payload" fields = Some JNull ->
  handlePrankMessage fails ws (Some (JObj fields)) w = (Throw TypeError, w).
Proof.
  intros Hi Ht Hcs Hp. unfold handlePrankMessage, bind, get_clientInfo, rooms_get.
  rewrite Hi. destruct info as [ty rc h]. cbn in Ht, Hcs. subst ty.
  unfold targets in Hcs.
  destruct (rooms w !! rc) as [room|]; [|done].
  destruct (clients room) as [|c cs]; [done|].
  cbn [length Nat.eqb]. unfold lift, prop.
  destruct Hp as [-> | ->]; reflexivity.
Qed.

Lemma handlePrankMessage_fanout fields w info payload :
  clientInfo w !! ws = Some info ->
  ci_type info = role_sender ->
  targets w (ci_roomCode info) <> [] ->
  field "payload" fields = Some payload ->
  log_line (Some payload) = Ok tt ->
  let cs := targets w (ci_roomCode info) in
  handlePrankMessage fails ws (Some (JObj fields)) w =
  (if fails ws then Throw SendError else Ok tt,
   logged w (map (fun c => attempt fails c (prank_message (Some payload))) cs ++
             [attempt fails ws (prank_delivered (delivered_count fails cs) (length cs))])).
Proof.
  intros Hi Ht Hcs Hp Hline cs. subst cs.
  unfold handlePrankMessage. unfold bind at 1. unfold get_clientInfo.
  rewrite Hi. destruct info as [ty rc h]. cbn in Ht, Hcs. subst ty.
  cbn [ci_roomCode]. unfold targets in *.
  unfold bind at 1. unfold rooms_get.
  destruct (rooms w !! rc) as [room|] eqn:E; [|done].
  destruct (clients room) as [|c cs] eqn:Ecs; [done|].
  cbn [length Nat.eqb]. unfold bind at 1. unfold lift at 1. unfold prop at 1.
  rewrite Hp. unfold log_line in Hline.
  destruct (prop (Some payload) "type") as [type|e] eqn:Hv; [|discriminate].
  unfold bind at 1. unfold lift at 1.
  unfold bind at 1. unfold lift at 1. rewrite Hline.
  unfold bind at 1. unfold room_read at 1. rewrite E.
  unfold bind at 1. rewrite Ecs, forEach_prank_eq.
  unfold bind at 1. unfold room_read, logged at 1. cbn [rooms]. rewrite E.
  rewrite send_eq. rewrite Ecs. cbn [length]. unfold logged. cbn [rooms clientInfo log].
  rewrite <- app_assoc. reflexivity.
Qed.

(** The handler gives up, before any send, when its log line throws. *)
Lemma handlePrankMessage_unlogged fields w info e :
  clientInfo w !! ws = Some info ->
  ci_type info = role_sender ->
  targets w (ci_roomCode info) <> [] ->
  log_line (field "payload" fields) = Throw e ->
  handlePrankMessage fails ws (Some (JObj fields)) w = (Throw e, w).
Proof.
  intros Hi Ht Hcs Hline. unfold handlePrankMessage, bind, get_clientInfo, rooms_get.
  rewrite Hi. destruct info as [ty rc h]. cbn in Ht, Hcs. subst ty.
  unfold targets in Hcs.
  destruct (rooms w !! rc) as [room|]; [|done].
  destruct (clients room) as [|c cs]; [done|].
  cbn [length Nat.eqb]. unfold lift. unfold prop at 1.
  unfold log_line in Hline.
  destruct (prop (field "payload" fields) "type") as [type|e'] eqn:Hv.
  - rewrite Hline. reflexivity.
  - injection Hline as ->. reflexivity.
Qed.

Lemma log_line_payload payload :
  log_line payload = Ok tt -> exists j, payload = Some j.
Proof. destruct payload as [j|]; [eauto|discriminate]. Qed.

Lemma forEach_sender_disconnected_eq cs w :
  forEach_sender_disconnected fails cs w =
  (Ok tt, logged w (map (fun c => attempt fails c sender_disconnected) cs)).
Proof.
  revert w. induction cs as [|c cs IH]; intros w.
  - cbn. unfold ret, logged. cbn. rewrite app_nil_r. destruct w; reflexivity.
  - cbn [forEach_sender_disconnected]. unfold bind, try_catch, ret.
    rewrite send_eq. destruct (fails c) eqn:Ec; rewrite IH;
      unfold logged, attempt; cbn [rooms clientInfo log map]; rewrite Ec;
      rewrite <- app_assoc; reflexivity.
Qed.

Lemma handleDisconnection_sender info room w :
  ci_type info = role_sender ->
  rooms w !! ci_roomCode info = Some room ->
  handleDisconnection fails ws info w =
  (Ok tt,
   mkWorld (settle (ci_roomCode info) (mkRoom None (clients room)) (rooms w))
           (clientInfo w)
           (log w ++ map (fun c => attempt fails c sender_disconnected) (clients room))).
Proof.
  intros Ht E. destruct info as [ty rc h]. cbn in Ht, E. subst ty.
  unfold handleDisconnection. cbn [ci_roomCode ci_type].
  unfold bind at 1. unfold rooms_get. rewrite E.
  unfold bind at 1. unfold bind at 1. unfold room_write. rewrite E.
  unfold bind at 1. unfold room_read at 1. cbn [rooms].
  rewrite lookup_insert_eq. cbn [clients].
  rewrite forEach_sender_disconnected_eq.
  unfold logged. steps. unfold settle. cbn [sender clients].
  destruct (clients room) as [|c cs]; steps.
  - rewrite delete_insert_eq. reflexivity.
  - reflexivity.
Qed.

Lemma handleDisconnection_client info current room w :
  ci_type info = role_client ->
  clientInfo w !! ws = Some current ->
  rooms w !! ci_roomCode info = Some room ->
  let cs := without (ci_ws current) (clients room) in
  let n := length cs in
  handleDisconnection fails ws info w =
  match sender room with
  | Some s =>
      if fails s
      then (Throw SendError,
            mkWorld (<[ci_roomCode info := mkRoom (Some s) cs]> (rooms w)) (clientInfo w)
                    (log w ++ [mkAttempt s (client_count n) false]))
      else (Ok tt,
            mkWorld (<[ci_roomCode info := mkRoom (Some s) cs]> (rooms w)) (clientInfo w)
                    (log w ++ [mkAttempt s (client_count n) true;
                               mkAttempt s (if 0 <? n then target_update n else target_lost) true]))
  | None =>
      (Ok tt, mkWorld (settle (ci_roomCode info) (mkRoom None cs) (rooms w)) (clientInfo w) (log w))
  end.
Proof.
  intros Ht Hc E cs n. subst n cs. destruct info as [ty rc h]. cbn in Ht, E. subst ty.
  unfold handleDisconnection. cbn [ci_roomCode ci_type].
  unfold bind at 1. unfold rooms_get at 1. rewrite E.
  unfold bind at 1. unfold bind at 1. unfold room_read at 1. rewrite E.
  unfold bind at 1. unfold clientInfo_ws, bind, get_clientInfo. rewrite Hc.
  fold (@bind World). unfold ret at 1.
  unfold without. destruct room as [s cs]. cbn [clients sender].
  destruct (findIndex (ci_ws current) cs) as [i|] eqn:Ei.
  - steps. rewrite E. steps.
    destruct s as [s|]; steps.
    + destruct (fails s) eqn:Es; steps; [reflexivity|].
      rewrite Es.
      destruct (0 <? length (splice i cs)); steps; rewrite <- ?app_assoc; reflexivity.
    + unfold settle. cbn [sender clients].
      destruct (splice i cs) as [|c cs']; steps.
      * rewrite delete_insert_eq. reflexivity.
      * reflexivity.
  - steps. rewrite !E. steps.
    destruct s as [s|]; steps.
    + rewrite (insert_id (rooms w) rc _ E).
      destruct (fails s) eqn:Es; steps; [destruct w; reflexivity|].
      rewrite !E. steps. rewrite Es.
      destruct (0 <? length cs) eqn:El;
        repeat (progress (steps; rewrite ?E, ?El)); rewrite <- ?app_assoc;
        destruct w; reflexivity.
    + unfold settle. cbn [sender clients].
      destruct cs as [|c cs']; repeat (progress (steps; rewrite ?E)).
      * destruct w; reflexivity.
      * rewrite (insert_id (rooms w) rc _ E). destruct w; reflexivity.
Qed.

End Handlers.

(** ** One event *)

Lemma same_store_logged w l : same_store w (logged w l).
Proof. split; reflexivity. Qed.

Lemma same_store_refl w : same_store w w.
Proof. split; reflexivity. Qed.

Lemma handlePrankMessage_same_store fails ws message w :
  same_store w (snd (handlePrankMessage fails ws message w)).
Proof.
  destruct (decide (ci_type <$> clientInfo w !! ws = Some role_sender)) as [Hs|Hs].
  - destruct (clientInfo w !! ws) as [info|] eqn:Hi; [|done].
    injection Hs as Hs.
    destruct (decide (targets w (ci_roomCode info) = [])) as [Hcs|Hcs].
    + rewrite (handlePrankMessage_no_targets _ _ _ _ info), send_eq by done.
      apply same_store_logged.
    + destruct message as [[| | | | |fields]|].
      1-5: unfold handlePrankMessage, bind, get_clientInfo, rooms_get, targets in *;
        rewrite Hi; destruct info as [ty rc h]; cbn in Hs, Hcs |- *; subst ty;
        destruct (rooms w !! rc) as [room|]; [|done];
        destruct (clients room); [done|]; cbn; apply same_store_refl.
      * destruct (log_line (field "payload" fields)) as [[]|e] eqn:Hline.
        -- destruct (log_line_payload _ Hline) as [payload Hp].
           rewrite Hp in Hline.
           rewrite (handlePrankMessage_fanout _ _ _ _ info payload) by done.
           apply same_store_logged.
        -- rewrite (handlePrankMessage_unlogged _ _ _ _ info e) by done.
           apply same_store_refl.
      * unfold handlePrankMessage, bind, get_clientInfo, rooms_get, targets in *;
        rewrite Hi; destruct info as [ty rc h]; cbn in Hs, Hcs |- *; subst ty;
        destruct (rooms w !! rc) as [room|]; [|done];
        destruct (clients room); [done|]; cbn; apply same_store_refl.
  - rewrite handlePrankMessage_not_sender, send_eq by done.
    apply same_store_logged.
Qed.

Lemma try_swallow (m : M unit) w :
  try_catch m (fun _ => ret tt) w = (Ok tt, snd (m w)).
Proof. unfold try_catch, ret. destruct (m w) as [[[]|e] w']; reflexivity. Qed.

Lemma on_message_ignored fails ws fields w t :
  field "type" fields = Some (JStr t) ->
  String.eqb t "sender_join" = false ->
  String.eqb t "client_join" = false ->
  String.eqb t "prank_message" = false ->
  same_store w (snd (on_message fails ws (Some (JObj fields)) w)).
Proof.
  intros Ht E1 E2 E3.
  unfold on_message, JSON_parse, try_catch, bind, ret, lift, prop, dispatch.
  rewrite Ht, E1, E2, E3.
  destruct (String.eqb t "ping"); [|apply same_store_refl].
  rewrite send_eq. destruct (fails ws); apply same_store_logged.
Qed.

(** A message event always completes; it changes the store only by an
    accepted join, and then in one fixed way. *)
Lemma step_message fails ws data w :
  exists w', step fails (Message ws data) w = Some w' /\
    match join_role data with
    | None => same_store w w'
    | Some role_sender => exists l, w' = sender_joined ws w l
    | Some role_client => exists l, w' = client_joined ws w l
    end.
Proof.
  unfold step, listener, listener.
  destruct data as [[| | | | |fields]|];
    try (exists w; split; [reflexivity | apply same_store_refl]).
  destruct (field "type" fields) as [[| | |t| |]|] eqn:Ht;
    try (exists w; split;
         [unfold on_message, JSON_parse, try_catch, bind, ret, lift, prop, dispatch;
          rewrite Ht; reflexivity
         |unfold join_role; rewrite Ht; apply same_store_refl]).
  unfold join_role. rewrite Ht.
  destruct (String.eqb t "sender_join") eqn:E1.
  { apply String.eqb_eq in E1. subst t.
    rewrite on_message_sender_join, try_swallow by done.
    eexists; split; [reflexivity|].
    destruct (valid_roomCode (field "roomCode" fields)) as [code|] eqn:Hv.
    - apply valid_roomCode_Some in Hv as [Hv _].
      rewrite handleSenderJoin_valid by done.
      destruct (fails ws); eexists; reflexivity.
    - apply valid_roomCode_None in Hv.
      rewrite handleSenderJoin_invalid, send_eq by done. apply same_store_logged. }
  destruct (String.eqb t "client_join") eqn:E2.
  { apply String.eqb_eq in E2. subst t.
    rewrite on_message_client_join, try_swallow by done.
    eexists; split; [reflexivity|].
    destruct (valid_roomCode (field "roomCode" fields)) as [code|] eqn:Hv.
    - apply valid_roomCode_Some in Hv as [Hv _].
      rewrite handleClientJoin_valid by done.
      destruct (fails ws); [eexists; reflexivity|].
      destruct (controller w PRANK_ROOM_CODE) as [s|]; [|eexists; reflexivity].
      destruct (fails s); eexists; reflexivity.
    - apply valid_roomCode_None in Hv.
      rewrite handleClientJoin_invalid, send_eq by done. apply same_store_logged. }
  assert (Hsame : same_store w (snd (on_message fails ws (Some (JObj fields)) w))).
  { destruct (String.eqb t "prank_message") eqn:E3.
    - apply String.eqb_eq in E3. subst t.
      rewrite on_message_prank_message, try_swallow by done.
      apply handlePrankMessage_same_store.
    - eapply on_message_ignored; eauto. }
  exists (snd (on_message fails ws (Some (JObj fields)) w)). split.
  - unfold on_message. rewrite try_swallow. reflexivity.
  - destruct (valid_roomCode (field "roomCode" fields)); exact Hsame.
Qed.

(** Whether the close listener completes or throws, it leaves the registry
    [rooms_after_close] and the sessions untouched. *)
Lemma on_close_store fails ws w :
  rooms (snd (on_close fails ws w)) = rooms_after_close ws w /\
  clientInfo (snd (on_close fails ws w)) = clientInfo w.
Proof.
  unfold on_close, rooms_after_close, bind, get_clientInfo.
  destruct (clientInfo w !! ws) as [info|] eqn:Hi; [|done].
  fold (@bind World).
  destruct (rooms w !! ci_roomCode info) as [room|] eqn:E.
  - unfold departed. destruct (ci_type info) eqn:Ht.
    + rewrite (handleDisconnection_sender _ _ _ room) by done. done.
    + rewrite (handleDisconnection_client _ _ _ info room) by done.
      destruct (sender room) as [s|] eqn:Es; [|done].
      unfold settle. cbn [sender clients]. destruct (fails s); done.
  - unfold handleDisconnection, bind, rooms_get. rewrite E. done.
Qed.

Lemma step_listener fails e w w' :
  step fails e w = Some w' -> w' = snd (listener fails e w).
Proof.
  unfold step. destruct (listener fails e w) as [[[]|x] w1]; [|discriminate].
  intros [= <-]. reflexivity.
Qed.

Lemma step_close fails ws w w' :
  step fails (Close ws) w = Some w' ->
  rooms w' = rooms_after_close ws w /\ clientInfo w' = clientInfo w.
Proof. intros H. apply step_listener in H as ->. apply on_close_store. Qed.

(** ** Invariants along a run *)

Lemma run_invariant (I : World -> Prop) :
  (forall fails e w w', I w -> step fails e w = Some w' -> I w') ->
  forall trace w0 w, I w0 -> run trace w0 = Some w -> I w.
Proof.
  intros Hstep trace. induction trace as [|[fails e] rest IH]; intros w0 w H0 Hrun.
  - cbn in Hrun. injection Hrun as <-. exact H0.
  - cbn in Hrun. destruct (step fails e w0) as [w1|] eqn:E; [|discriminate].
    eapply IH; [|exact Hrun]. eapply Hstep; eauto.
Qed.

Lemma settle_lookup_ne roomCode room rs k :
  k <> roomCode -> settle roomCode room rs !! k = rs !! k.
Proof.
  intros Hne. unfold settle.
  destruct (sender room), (clients room);
    rewrite ?lookup_insert_ne, ?lookup_delete_ne by done; reflexivity.
Qed.

Lemma settle_lookup_eq roomCode room rs r :
  settle roomCode room rs !! roomCode = Some r ->
  r = room /\ (sender room <> None \/ clients room <> []).
Proof.
  unfold settle.
  destruct (sender room) eqn:Es, (clients room) eqn:Ec;
    rewrite ?lookup_insert_eq, ?lookup_delete_eq; intros [= <-]; split; auto;
    rewrite ?Es, ?Ec; auto.
Qed.

Lemma settle_vacant roomCode room rs :
  sender room = None -> clients room = [] ->
  settle roomCode room rs = delete roomCode rs.
Proof. intros Hs Hc. unfold settle. rewrite Hs, Hc. reflexivity. Qed.

Lemma only_secret_step fails e w w' :
  only_secret w -> step fails e w = Some w' -> only_secret w'.
Proof.
  intros [Hr Hc] Hstep. destruct e as [ws data|ws].
  - destruct (step_message fails ws data w) as (w1 & Hw1 & Hcase).
    rewrite Hstep in Hw1. injection Hw1 as <-.
    destruct (join_role data) as [[]|].
    + destruct Hcase as [l ->]. split; cbn.
      * intros rc. destruct (decide (rc = PRANK_ROOM_CODE)) as [->|Hne]; [done|].
        rewrite lookup_insert_ne by done. apply Hr.
      * intros h info. destruct (decide (h = ws)) as [->|Hne].
        -- rewrite lookup_insert_eq. intros [= <-]. reflexivity.
        -- rewrite lookup_insert_ne by done. apply Hc.
    + destruct Hcase as [l ->]. split; cbn.
      * intros rc. destruct (decide (rc = PRANK_ROOM_CODE)) as [->|Hne]; [done|].
        rewrite lookup_insert_ne by done. apply Hr.
      * intros h info. destruct (decide (h = ws)) as [->|Hne].
        -- rewrite lookup_insert_eq. intros [= <-]. reflexivity.
        -- rewrite lookup_insert_ne by done. apply Hc.
    + destruct Hcase as [Hrooms Hci]. unfold only_secret.
      rewrite Hrooms, Hci. done.
  - apply step_close in Hstep as [Hrooms Hci]. unfold only_secret.
    rewrite Hrooms, Hci. split; [|exact Hc].
    unfold rooms_after_close.
    destruct (clientInfo w !! ws) as [info|]; [|exact Hr].
    destruct (rooms w !! ci_roomCode info) as [room|] eqn:E; [|exact Hr].
    intros rc. destruct (decide (rc = ci_roomCode info)) as [->|Hne].
    + intros _. apply Hr. eauto.
    + rewrite settle_lookup_ne by done. apply Hr.
Qed.

Lemma only_secret_init : only_secret init.
Proof.
  split; cbn.
  - intros rc [room H]. rewrite lookup_empty in H. discriminate.
  - intros h info H. rewrite lookup_empty in H. discriminate.
Qed.

Lemma reachable_only_secret w : reachable w -> only_secret w.
Proof.
  intros [trace Hrun]. eapply run_invariant; [|apply only_secret_init|exact Hrun].
  intros fails e w1 w2. apply only_secret_step.
Qed.

Lemma occupied_after_close ws w roomCode room :
  occupied w ->
  rooms_after_close ws w !! roomCode = Some room ->
  sender room <> None \/ clients room <> [].
Proof.
  intros Hocc. unfold rooms_after_close.
  destruct (clientInfo w !! ws) as [info|]; [|apply Hocc].
  destruct (rooms w !! ci_roomCode info) as [room0|] eqn:E; [|apply Hocc].
  destruct (decide (roomCode = ci_roomCode info)) as [->|Hne].
  - intros H. apply settle_lookup_eq in H as [-> H]. exact H.
  - rewrite settle_lookup_ne by done. apply Hocc.
Qed.

Lemma occupied_step fails e w w' :
  occupied w -> step fails e w = Some w' -> occupied w'.
Proof.
  intros Hocc Hstep. destruct e as [ws data|ws].
  - destruct (step_message fails ws data w) as (w1 & Hw1 & Hcase).
    rewrite Hstep in Hw1. injection Hw1 as <-.
    destruct (join_role data) as [[]|].
    + destruct Hcase as [l ->]. intros rc room. cbn.
      destruct (decide (rc = PRANK_ROOM_CODE)) as [->|Hne].
      * rewrite lookup_insert_eq. intros [= <-]. left. done.
      * rewrite lookup_insert_ne by done. apply Hocc.
    + destruct Hcase as [l ->]. intros rc room. cbn.
      destruct (decide (rc = PRANK_ROOM_CODE)) as [->|Hne].
      * rewrite lookup_insert_eq. intros [= <-]. right. cbn.
        intros H. apply app_eq_nil in H as [_ H]. discriminate.
      * rewrite lookup_insert_ne by done. apply Hocc.
    + destruct Hcase as [Hrooms _]. intros rc room. rewrite Hrooms. apply Hocc.
  - apply step_close in Hstep as [Hrooms _]. intros rc room. rewrite Hrooms.
    apply occupied_after_close, Hocc.
Qed.

(** The same holds for the world an event leaves when its listener throws. *)
Lemma occupied_listener fails e w :
  occupied w -> occupied (snd (listener fails e w)).
Proof.
  intros Hocc. destruct e as [ws data|ws].
  - destruct (step_message fails ws data w) as (w1 & Hw1 & _).
    rewrite <- (step_listener _ _ _ _ Hw1). eapply occupied_step; eauto.
  - cbn [listener]. destruct (on_close_store fails ws w) as [Hrooms _].
    intros rc room. rewrite Hrooms. apply occupied_after_close, Hocc.
Qed.

Lemma reachable_occupied w : reachable w -> occupied w.
Proof.
  intros [trace Hrun]. eapply run_invariant; [|idtac|exact Hrun].
  - intros fails e w1 w2. apply occupied_step.
  - intros rc room H. cbn in H. rewrite lookup_empty in H. discriminate.
Qed.

Lemma occupied_iff w :
  occupied w ->
  forall roomCode,
    is_Some (rooms w !! roomCode) <->
    (controller w roomCode <> None \/ targets w roomCode <> []).
Proof.
  intros Hocc rc. unfold controller, targets. split.
  - intros [room E]. rewrite E. eauto.
  - destruct (rooms w !! rc); [eauto|]. intros [H|H]; done.
Qed.

Lemma reachable_after trace w :
  run trace init = Some w -> reachable (after trace).
Proof. intros H. exists trace. unfold after. rewrite H. reflexivity. Qed.

Lemma single_key_size {V : Type} (rs : gmap string V) k :
  (forall roomCode, is_Some (rs !! roomCode) -> roomCode = k) -> size rs <= 1.
Proof.
  intros Hk. destruct (rs !! k) as [room|] eqn:E.
  - assert (rs = {[k := room]}) as ->.
    { apply map_eq. intros i. destruct (decide (i = k)) as [->|Hne].
      - rewrite lookup_singleton_eq. exact E.
      - rewrite lookup_singleton_ne by done.
        destruct (rs !! i) eqn:Ei; [|done]. exfalso. apply Hne, Hk. eauto. }
    rewrite map_size_singleton. lia.
  - assert (rs = ∅) as ->.
    { apply map_eq. intros i. rewrite lookup_empty.
      destruct (rs !! i) eqn:Ei; [|done].
      assert (i = k) as -> by (apply Hk; eauto). congruence. }
    rewrite map_size_empty. lia.
Qed.

(** * The claims *)

(** C4: in every reachable state a room is in the registry exactly when it
    has a sender or at least one client; the world any event leaves, whether
    its listener completes or throws, has this property again, so a room
    emptied by a disconnection is removed by that same event; and when a
    connection that joined as sender closes while its room has no client, the
    room is gone right after the event. *)
Theorem C4_room_exists_iff_occupied (w : World) :
  reachable w ->
  (forall roomCode,
      is_Some (rooms w !! roomCode) <->
      (controller w roomCode <> None \/ targets w roomCode <> [])) /\
  (forall fails e roomCode,
      let w' := snd (listener fails e w) in
      is_Some (rooms w' !! roomCode) <->
      (controller w' roomCode <> None \/ targets w' roomCode <> [])) /\
  (forall fails ws info room,
      clientInfo w !! ws = Some info ->
      ci_type info = role_sender ->
      rooms w !! ci_roomCode info = Some room ->
      clients room = [] ->
      exists w',
        step fails (Close ws) w = Some w' /\
        rooms w' = delete (ci_roomCode info) (rooms w)).
Proof.
  intros Hreach. split; [|split].
  - apply occupied_iff, reachable_occupied, Hreach.
  - intros fails e roomCode w'.
    apply occupied_iff, occupied_listener, reachable_occupied, Hreach.
  - intros fails ws info room Hi Ht E Hc.
    unfold step, listener, on_close, bind, get_clientInfo. rewrite Hi.
    rewrite (handleDisconnection_sender _ _ _ room) by done.
    eexists; split; [reflexivity|]. cbn [rooms].
    apply settle_vacant; [reflexivity|exact Hc].
Qed.

Lemma C4_witness :
  reachable sender0_alone /\
  is_Some (rooms sender0_alone !! PRANK_ROOM_CODE) /\
  exists w',
    step all_ok (Close 0) sender0_alone = Some w' /\
    rooms w' = delete PRANK_ROOM_CODE (rooms sender0_alone).
Proof.
  assert (H : reachable sender0_alone)
    by (unfold sender0_alone; eapply reachable_after; vm_compute; reflexivity).
  destruct (C4_room_exists_iff_occupied sender0_alone H) as (Hiff & _ & Hclose).
  split; [exact H|]. split.
  - apply Hiff. left. vm_compute. discriminate.
  - apply (Hclose all_ok 0 (mkClientInfo role_sender PRANK_ROOM_CODE None)
                  (mkRoom (Some 0) [])); reflexivity.
Defined.

(** C5: every protocol rejection (a join of either role whose roomCode is
    not the configured secret, a prank message from a connection that is not
    a sender, a prank message while the room is absent or has no client)
    makes exactly one send, of an [error] message to the offending
    connection, and leaves the registry and every session as they were.  The
    event completes and the handlers have no action that closes a socket. *)
Theorem C5_rejection_sends_one_error
    (fails : Oracle) (ws : Handle) (fields : list (string * JSON)) (w : World) (text : string) :
  rejected w ws fields text ->
  step fails (Message ws (Some (JObj fields))) w =
  Some (mkWorld (rooms w) (clientInfo w)
                (log w ++ [mkAttempt ws (error text) (negb (fails ws))])).
Proof.
  intros Hrej. unfold step, listener, listener.
  destruct Hrej as [Ht Hc|Ht Hc|Ht Hr|info Ht Hi Hr Hcs].
  - rewrite on_message_sender_join, try_swallow, handleSenderJoin_invalid, send_eq by done.
    reflexivity.
  - rewrite on_message_client_join, try_swallow, handleClientJoin_invalid, send_eq by done.
    reflexivity.
  - rewrite on_message_prank_message, try_swallow, handlePrankMessage_not_sender, send_eq
      by done.
    reflexivity.
  - rewrite on_message_prank_message, try_swallow by done.
    rewrite (handlePrankMessage_no_targets _ _ _ _ info), send_eq by done.
    reflexivity.
Qed.

Lemma C5_witness :
  rejected init 7 [("type", JStr "client_join"); ("roomCode", JStr "guess")]
           "Invalid room code" /\
  step all_ok (Message 7 (client_join "guess")) init =
  Some (mkWorld ∅ ∅ [mkAttempt 7 (error "Invalid room code") true]).
Proof.
  assert (H : rejected init 7 [("type", JStr "client_join"); ("roomCode", JStr "guess")]
                       "Invalid room code").
  { apply rejected_client_join; [reflexivity | discriminate]. }
  split; [exact H|].
  exact (C5_rejection_sends_one_error all_ok 7 _ init _ H).
Defined.

(** C7: a [sender_join] carrying the secret fetches the room or creates it,
    stores this socket in [room.sender] whatever was there before (the
    former sender's session and socket are not touched), records the session
    as sender of that room, then sends this socket [client_count] with the
    current number of clients, followed by [target_acquired] when that
    number is positive and [waiting_for_target] when it is zero. *)
Theorem C7_sender_join_binds_and_reports
    (fails : Oracle) (ws : Handle) (fields : list (string * JSON)) (w : World) :
  field "type" fields = Some (JStr "sender_join") ->
  field "roomCode" fields = Some (JStr PRANK_ROOM_CODE) ->
  let cs := targets w PRANK_ROOM_CODE in
  let n := length cs in
  exists w',
    step fails (Message ws (Some (JObj fields))) w = Some w' /\
    rooms w' = <[PRANK_ROOM_CODE := mkRoom (Some ws) cs]> (rooms w) /\
    clientInfo w' = <[ws := mkClientInfo role_sender PRANK_ROOM_CODE None]> (clientInfo w) /\
    log w' =
      log w ++
      if fails ws
      then [mkAttempt ws (client_count n) false]
      else [mkAttempt ws (client_count n) true;
            mkAttempt ws (if 0 <? n then target_acquired n else waiting_for_target) true].
Proof.
  intros Ht Hc cs n. subst cs n. unfold step, listener, listener.
  rewrite on_message_sender_join, try_swallow, handleSenderJoin_valid by done.
  destruct (fails ws); eexists; (split; [reflexivity|]); cbn; done.
Qed.

Lemma C7_witness :
  exists w',
    step all_ok (Message 0 (sender_join PRANK_ROOM_CODE)) init = Some w' /\
    rooms w' = {[PRANK_ROOM_CODE := mkRoom (Some 0) []]} /\
    clientInfo w' = {[0 := mkClientInfo role_sender PRANK_ROOM_CODE None]} /\
    log w' = [mkAttempt 0 (client_count 0) true; mkAttempt 0 waiting_for_target true].
Proof.
  exact (C7_sender_join_binds_and_reports all_ok 0
           [("type", JStr "sender_join"); ("roomCode", JStr PRANK_ROOM_CODE)] init
           eq_refl eq_refl).
Defined.

(** C10: a prank message from a joined sender whose room has a client, but
    whose [payload] is missing or [null], is dropped without a trace: reading
    [message.payload.type] throws before any send, the message listener
    swallows the exception, and the world (registry, sessions and the log of
    sends) is exactly what it was, so no client receives anything and the
    sender gets neither an error nor a receipt. *)
Theorem C10_missing_payload_is_dropped
    (fails : Oracle) (ws : Handle) (fields : list (string * JSON)) (w : World) (info : ClientInfo) :
  field "type" fields = Some (JStr "prank_message") ->
  clientInfo w !! ws = Some info ->
  ci_type info = role_sender ->
  targets w (ci_roomCode info) <> [] ->
  field "payload" fields = None \/ field "payload" fields = Some JNull ->
  handlePrankMessage fails ws (Some (JObj fields)) w = (Throw TypeError, w) /\
  step fails (Message ws (Some (JObj fields))) w = Some w.
Proof.
  intros Ht Hi Hr Hcs Hp.
  assert (H := handlePrankMessage_throws fails ws fields w info Hi Hr Hcs Hp).
  split; [exact H|].
  unfold step, listener, listener. rewrite on_message_prank_message, try_swallow, H by done. reflexivity.
Qed.

Lemma C10_witness :
  step all_ok (Message 0 (Some (JObj [("type", JStr "prank_message")]))) sender0_client1 =
  Some sender0_client1.
Proof.
  apply (C10_missing_payload_is_dropped all_ok 0 [("type", JStr "prank_message")]
           sender0_client1 (mkClientInfo role_sender PRANK_ROOM_CODE None)).
  - reflexivity.
  - reflexivity.
  - reflexivity.
  - vm_compute. discriminate.
  - left. reflexivity.
Defined.

Section Fanout.

Variable fails : Oracle.

Lemma map_attempt_ok (m : Outgoing) (l : list Handle) :
  (forall c, c ∈ l -> fails c = false) ->
  map (fun c => attempt fails c m) l = map (fun c => mkAttempt c m true) l.
Proof.
  induction l as [|c l IH]; intros H; [reflexivity|]. cbn [map].
  unfold attempt at 1. rewrite (H c) by left. rewrite IH; [reflexivity|].
  intros c' Hc'. apply H. right. exact Hc'.
Qed.

Lemma delivered_count_ok (l : list Handle) :
  (forall c, c ∈ l -> fails c = false) -> delivered_count fails l = length l.
Proof.
  unfold delivered_count. induction l as [|c l IH]; intros H; [reflexivity|].
  rewrite filter_cons, decide_True by (apply H; left). cbn [length].
  rewrite IH; [reflexivity|]. intros c' Hc'. apply H. right. exact Hc'.
Qed.

Lemma delivered_count_app (l1 l2 : list Handle) :
  delivered_count fails (l1 ++ l2) = delivered_count fails l1 + delivered_count fails l2.
Proof. unfold delivered_count. rewrite filter_app, length_app. reflexivity. Qed.

Lemma delivered_count_failed (c : Handle) (l : list Handle) :
  fails c = true -> delivered_count fails (c :: l) = delivered_count fails l.
Proof.
  intros H. unfold delivered_count. rewrite filter_cons, decide_False; [reflexivity|].
  rewrite H. discriminate.
Qed.

End Fanout.

(** C3: when a sender relays a payload (one the handler's log line accepts:
    [payload.type] can be read and converted to a string) to a room of N
    clients and the send to exactly one of them throws, the exception is
    caught inside the loop:
    every other client is still sent the payload (those before and those
    after the failing one, in order), and the receipt sent to the sender is
    [prank_delivered (N - 1) N], where N is the number of clients the room
    had when the fan-out began. *)
Theorem C3_partial_failure_fanout
    (fails : Oracle) (ws : Handle) (fields : list (string * JSON)) (w : World)
    (info : ClientInfo) (payload : JSON) (before after : list Handle) (bad : Handle) :
  field "type" fields = Some (JStr "prank_message") ->
  field "payload" fields = Some payload ->
  log_line (Some payload) = Ok tt ->
  clientInfo w !! ws = Some info ->
  ci_type info = role_sender ->
  targets w (ci_roomCode info) = before ++ bad :: after ->
  fails bad = true ->
  (forall c, c ∈ before ++ after -> fails c = false) ->
  let N := length (targets w (ci_roomCode info)) in
  step fails (Message ws (Some (JObj fields))) w =
  Some (mkWorld (rooms w) (clientInfo w)
          (log w ++
           map (fun c => mkAttempt c (prank_message (Some payload)) true) before ++
           [mkAttempt bad (prank_message (Some payload)) false] ++
           map (fun c => mkAttempt c (prank_message (Some payload)) true) after ++
           [mkAttempt ws (prank_delivered (N - 1) N) (negb (fails ws))])).
Proof.
  intros Ht Hp Hn Hi Hr Hcs Hbad Hok N. subst N. unfold step, listener, listener.
  rewrite on_message_prank_message, try_swallow by done.
  rewrite (handlePrankMessage_fanout _ _ _ _ info payload) by (rewrite ?Hcs; done || by destruct before).
  rewrite Hcs. cbn [snd]. unfold logged. f_equal. f_equal. f_equal.
  rewrite map_app. cbn [map].
  rewrite !map_attempt_ok by (intros c Hc; apply Hok; set_solver).
  rewrite delivered_count_app, delivered_count_failed by done.
  rewrite !delivered_count_ok by (intros c Hc; apply Hok; set_solver).
  unfold attempt at 1. rewrite Hbad. cbn [negb].
  rewrite length_app. cbn [length].
  replace (length before + S (length after) - 1) with (length before + length after) by lia.
  rewrite <- !app_assoc. reflexivity.
Qed.

Lemma C3_witness :
  step (fails_only 2) (Message 0 (prank (JObj [("type", JStr "X")]))) sender0_clients123 =
  Some (mkWorld (rooms sender0_clients123) (clientInfo sender0_clients123)
          (log sender0_clients123 ++
           [mkAttempt 1 (prank_message (Some (JObj [("type", JStr "X")]))) true;
            mkAttempt 2 (prank_message (Some (JObj [("type", JStr "X")]))) false;
            mkAttempt 3 (prank_message (Some (JObj [("type", JStr "X")]))) true;
            mkAttempt 0 (prank_delivered 2 3) true])).
Proof.
  apply (C3_partial_failure_fanout (fails_only 2) 0
           [("type", JStr "prank_message"); ("payload", JObj [("type", JStr "X")])]
           sender0_clients123 (mkClientInfo role_sender PRANK_ROOM_CODE None)
           (JObj [("type", JStr "X")]) [1] [3] 2).
  - reflexivity.
  - reflexivity.
  - reflexivity.
  - reflexivity.
  - reflexivity.
  - reflexivity.
  - reflexivity.
  - intros c Hc. apply elem_of_cons in Hc as [->|Hc]; [reflexivity|].
    apply elem_of_cons in Hc as [->|Hc]; [reflexivity|].
    apply elem_of_nil in Hc. destruct Hc.
Defined.

(** ** Runs of joins *)

Lemma run_app t1 t2 w :
  run (t1 ++ t2) w = match run t1 w with Some w1 => run t2 w1 | None => None end.
Proof.
  revert w. induction t1 as [|[fails e] t1 IH]; intros w; [reflexivity|].
  cbn. destruct (step fails e w); [apply IH | reflexivity].
Qed.









(** ** Removing a client *)

Lemma findIndex_first h (l1 l2 : list Handle) :
  h ∉ l1 -> findIndex (Some h) (l1 ++ h :: l2) = Some (length l1).
Proof.
  induction l1 as [|x l1 IH]; intros Hnot; cbn [app findIndex length].
  - rewrite bool_decide_eq_true_2 by reflexivity. reflexivity.
  - rewrite bool_decide_eq_false_2 by (intros [= ->]; apply Hnot; left).
    rewrite IH by (intros H; apply Hnot; right; exact H). reflexivity.
Qed.

Lemma splice_middle h (l1 l2 : list Handle) :
  splice (length l1) (l1 ++ h :: l2) = l1 ++ l2.
Proof.
  unfold splice. induction l1 as [|x l1 IH]; [reflexivity|].
  cbn [length app take drop] in *. f_equal. exact IH.
Qed.

Lemma without_first h (l1 l2 : list Handle) :
  h ∉ l1 -> without (Some h) (l1 ++ h :: l2) = l1 ++ l2.
Proof.
  intros Hnot. unfold without. rewrite findIndex_first by exact Hnot.
  apply splice_middle.
Qed.

Lemma without_sublist target (cs : list Handle) : sublist (without target cs) cs.
Proof.
  unfold without. destruct (findIndex target cs) as [i|]; [|reflexivity].
  unfold splice. rewrite <- delete_take_drop. apply sublist_delete.
Qed.

Lemma client_ws_step fails e w w' :
  client_ws w -> step fails e w = Some w' -> client_ws w'.
Proof.
  intros Hinv Hstep. destruct e as [ws data|ws].
  - destruct (step_message fails ws data w) as (w1 & Hw1 & Hcase).
    rewrite Hstep in Hw1. injection Hw1 as <-.
    destruct (join_role data) as [[]|].
    + destruct Hcase as [l ->]. intros h info. cbn.
      destruct (decide (h = ws)) as [->|Hne].
      * rewrite lookup_insert_eq. intros [= <-]. discriminate.
      * rewrite lookup_insert_ne by done. apply Hinv.
    + destruct Hcase as [l ->]. intros h info. cbn.
      destruct (decide (h = ws)) as [->|Hne].
      * rewrite lookup_insert_eq. intros [= <-]. reflexivity.
      * rewrite lookup_insert_ne by done. apply Hinv.
    + destruct Hcase as [_ Hci]. unfold client_ws. rewrite Hci. exact Hinv.
  - apply step_close in Hstep as [_ Hci]. unfold client_ws. rewrite Hci. exact Hinv.
Qed.

Lemma reachable_client_ws w : reachable w -> client_ws w.
Proof.
  intros [trace Hrun]. eapply run_invariant; [|idtac|exact Hrun].
  - intros fails e w1 w2. apply client_ws_step.
  - intros h info H. cbn in H. rewrite lookup_empty in H. discriminate.
Qed.

(** C8: when a connection that joined as client closes, the first entry of
    [room.clients] identical to its socket is found by comparison of sockets
    and removed; the entries before and after it stay, in their order, so
    the array is shorter by exactly one whatever the position of the socket
    (and the socket is no longer a member when it was listed once).  Then, if
    the room has a sender, the sender is sent [client_count] with the new
    length, followed by [target_update] when that length is positive and
    [target_lost] when it is zero; without a sender nothing is sent. *)
Theorem C8_client_disconnect_removes_that_handle
    (fails : Oracle) (ws : Handle) (w : World) (room : Room) (before after : list Handle) :
  reachable w ->
  ci_type <$> clientInfo w !! ws = Some role_client ->
  rooms w !! PRANK_ROOM_CODE = Some room ->
  clients room = before ++ ws :: after ->
  ws ∉ before ->
  (forall s, sender room = Some s -> fails s = false) ->
  let n := length (before ++ after) in
  exists w',
    step fails (Close ws) w = Some w' /\
    rooms w' = settle PRANK_ROOM_CODE (mkRoom (sender room) (before ++ after)) (rooms w) /\
    targets w' PRANK_ROOM_CODE = before ++ after /\
    S n = length (clients room) /\
    (ws ∉ after -> ws ∉ before ++ after) /\
    clientInfo w' = clientInfo w /\
    log w' =
      log w ++
      match sender room with
      | Some s =>
          [mkAttempt s (client_count n) true;
           mkAttempt s (if 0 <? n then target_update n else target_lost) true]
      | None => []
      end.
Proof.
  intros Hreach Hrole E Hcs Hnot Hok n. subst n.
  destruct (clientInfo w !! ws) as [info|] eqn:Hi; [|discriminate].
  injection Hrole as Hrole.
  assert (Hcode : ci_roomCode info = PRANK_ROOM_CODE).
  { apply reachable_only_secret in Hreach as [_ H]. eapply H, Hi. }
  assert (Hws : ci_ws info = Some ws).
  { apply reachable_client_ws in Hreach. eapply Hreach; eauto. }
  unfold step, listener, on_close, bind, get_clientInfo. rewrite Hi.
  rewrite <- Hcode in E.
  rewrite (handleDisconnection_client _ _ _ info room) by done.
  rewrite Hws, Hcs, without_first by exact Hnot. rewrite Hcode.
  destruct (sender room) as [s|] eqn:Es.
  - rewrite (Hok s) by reflexivity.
    eexists; split; [reflexivity|]. cbn [rooms clientInfo log].
    split; [reflexivity|]. split.
    { unfold targets. cbn. rewrite lookup_insert_eq. reflexivity. }
    split; [rewrite !length_app; cbn [length]; lia|].
    split; [|done].
    intros Ha Hin. apply elem_of_app in Hin as [Hin|Hin]; done.
  - eexists; split; [reflexivity|]. cbn [rooms clientInfo log].
    split; [reflexivity|]. split.
    { unfold targets, settle. cbn [sender clients].
      destruct (before ++ after) as [|c cs]; cbn [rooms].
      - rewrite lookup_delete_eq. reflexivity.
      - rewrite lookup_insert_eq. reflexivity. }
    split; [rewrite !length_app; cbn [length]; lia|].
    split; [|rewrite app_nil_r; done].
    intros Ha Hin. apply elem_of_app in Hin as [Hin|Hin]; done.
Qed.

Lemma C8_witness :
  exists w',
    step all_ok (Close 1) sender0_clients123 = Some w' /\
    rooms w' = {[PRANK_ROOM_CODE := mkRoom (Some 0) [2; 3]]} /\
    log w' = log sender0_clients123 ++
             [mkAttempt 0 (client_count 2) true; mkAttempt 0 (target_update 2) true].
Proof.
  assert (H : reachable sender0_clients123)
    by (unfold sender0_clients123; eapply reachable_after; vm_compute; reflexivity).
  destruct (C8_client_disconnect_removes_that_handle all_ok 1 sender0_clients123
              (mkRoom (Some 0) [1; 2; 3]) [] [2; 3] H)
    as (w' & Hstep & Hrooms & _ & _ & _ & _ & Hlog).
  - reflexivity.
  - reflexivity.
  - reflexivity.
  - apply not_elem_of_nil.
  - reflexivity.
  - exists w'. split; [exact Hstep|]. split; [|exact Hlog].
    rewrite Hrooms. vm_compute. reflexivity.
Defined.

(** ** Connections that join once *)

Lemma run_joins_once_invariant (I : World -> Prop) :
  (forall fails e w w', I w -> first_join w e -> step fails e w = Some w' -> I w') ->
  forall trace w0 w, I w0 -> joins_once trace w0 -> run trace w0 = Some w -> I w.
Proof.
  intros Hstep trace. induction trace as [|[fails e] rest IH]; intros w0 w H0 Hj Hrun.
  - cbn in Hrun. injection Hrun as <-. exact H0.
  - cbn in Hrun, Hj. destruct Hj as [Hfirst Hj].
    destruct (step fails e w0) as [w1|] eqn:E; [|discriminate].
    eapply IH; [|exact Hj|exact Hrun]. eapply Hstep; eauto.
Qed.

Lemma roles_consistent_step fails e w w' :
  roles_consistent w -> first_join w e -> step fails e w = Some w' -> roles_consistent w'.
Proof.
  intros Hinv Hfirst Hstep. destruct e as [ws data|ws].
  - destruct (step_message fails ws data w) as (w1 & Hw1 & Hcase).
    rewrite Hstep in Hw1. injection Hw1 as <-. cbn in Hfirst.
    destruct (join_role data) as [[]|].
    + destruct Hcase as [l ->]. specialize (Hfirst ltac:(done)).
      assert (Hold : forall h, is_Some (clientInfo w !! h) -> h <> ws)
        by (intros h [x Hx] ->; congruence).
      intros rc room. cbn. unfold targets.
      destruct (decide (rc = PRANK_ROOM_CODE)) as [->|Hne].
      * rewrite lookup_insert_eq. intros [= <-]. cbn. split; [|split].
        -- intros s [= <-]. rewrite lookup_insert_eq. reflexivity.
        -- intros c Hc. destruct (rooms w !! PRANK_ROOM_CODE) as [room|] eqn:E;
             [|by apply elem_of_nil in Hc].
           destruct (Hinv _ _ E) as (_ & Hcl & _). specialize (Hcl c Hc).
           rewrite lookup_insert_ne; [exact Hcl|].
           intros <-. rewrite Hfirst in Hcl. discriminate.
        -- destruct (rooms w !! PRANK_ROOM_CODE) as [room|] eqn:E; [|constructor].
           apply (Hinv _ _ E).
      * rewrite lookup_insert_ne by done. intros E.
        destruct (Hinv _ _ E) as (Hs & Hcl & Hnd). split; [|split]; [| |exact Hnd].
        -- intros s Hsender. specialize (Hs s Hsender).
           rewrite lookup_insert_ne; [exact Hs|].
           intros <-. rewrite Hfirst in Hs. discriminate.
        -- intros c Hc. specialize (Hcl c Hc).
           rewrite lookup_insert_ne; [exact Hcl|].
           intros <-. rewrite Hfirst in Hcl. discriminate.
    + destruct Hcase as [l ->]. specialize (Hfirst ltac:(done)).
      intros rc room. cbn. unfold targets, controller.
      destruct (decide (rc = PRANK_ROOM_CODE)) as [->|Hne].
      * rewrite lookup_insert_eq. intros [= <-]. cbn.
        destruct (rooms w !! PRANK_ROOM_CODE) as [room|] eqn:E.
        -- destruct (Hinv _ _ E) as (Hs & Hcl & Hnd). split; [|split].
           ++ intros s Hsender. specialize (Hs s Hsender).
              rewrite lookup_insert_ne; [exact Hs|].
              intros <-. rewrite Hfirst in Hs. discriminate.
           ++ intros c Hc. apply elem_of_app in Hc as [Hc|Hc].
              ** specialize (Hcl c Hc). rewrite lookup_insert_ne; [exact Hcl|].
                 intros <-. rewrite Hfirst in Hcl. discriminate.
              ** apply list_elem_of_singleton in Hc as ->.
                 rewrite lookup_insert_eq. reflexivity.
           ++ apply NoDup_app. split; [exact Hnd|]. split; [|apply NoDup_singleton].
              intros c Hc Hc'. apply list_elem_of_singleton in Hc' as ->.
              specialize (Hcl ws Hc). rewrite Hfirst in Hcl. discriminate.
        -- split; [|split].
           ++ intros s [=].
           ++ intros c Hc. cbn in Hc. apply list_elem_of_singleton in Hc as ->.
              rewrite lookup_insert_eq. reflexivity.
           ++ cbn. apply NoDup_singleton.
      * rewrite lookup_insert_ne by done. intros E.
        destruct (Hinv _ _ E) as (Hs & Hcl & Hnd). split; [|split]; [| |exact Hnd].
        -- intros s Hsender. specialize (Hs s Hsender).
           rewrite lookup_insert_ne; [exact Hs|].
           intros <-. rewrite Hfirst in Hs. discriminate.
        -- intros c Hc. specialize (Hcl c Hc).
           rewrite lookup_insert_ne; [exact Hcl|].
           intros <-. rewrite Hfirst in Hcl. discriminate.
    + destruct Hcase as [Hrooms Hci]. unfold roles_consistent.
      rewrite Hrooms, Hci. exact Hinv.
  - apply step_close in Hstep as [Hrooms Hci]. unfold roles_consistent.
    rewrite Hrooms, Hci. unfold rooms_after_close.
    destruct (clientInfo w !! ws) as [info|]; [|exact Hinv].
    destruct (rooms w !! ci_roomCode info) as [room0|] eqn:E; [|exact Hinv].
    intros rc room. destruct (decide (rc = ci_roomCode info)) as [->|Hne].
    + intros H. apply settle_lookup_eq in H as [-> _].
      destruct (Hinv _ _ E) as (Hs & Hcl & Hnd).
      unfold departed. destruct (ci_type info); cbn; split; [| split | | split]; auto.
      * intros s [=].
      * intros c Hc. apply Hcl. eapply elem_of_sublist; [exact Hc|apply without_sublist].
      * eapply sublist_NoDup; [exact Hnd|]. apply without_sublist.
    + rewrite settle_lookup_ne by done. apply Hinv.
Qed.

(** C2 as stated fails: a connection may join again, and then its socket is
    the sender of the room and twice among its clients. *)
Lemma C2_counterexample :
  reachable sender0_rejoined_twice /\
  rooms sender0_rejoined_twice !! PRANK_ROOM_CODE = Some (mkRoom (Some 0) [0; 0]) /\
  occupies 0 (mkRoom (Some 0) [0; 0]) /\
  0 ∈ clients (mkRoom (Some 0) [0; 0]) /\
  ~ NoDup (clients (mkRoom (Some 0) [0; 0])).
Proof.
  split.
  { unfold sender0_rejoined_twice. eapply reachable_after. vm_compute. reflexivity. }
  split; [vm_compute; reflexivity|].
  split; [left; reflexivity|].
  split; [left|].
  cbn. intros H. apply NoDup_cons in H as [H _]. apply H. left.
Qed.

(** C2, amended: along every run in which each accepted join arrives on a
    connection that has not joined before, a socket occupies at most one
    room, the clients of a room are pairwise distinct, and the sender of a
    room is not among its clients. *)
Theorem C2_handles_unique_when_joining_once
    (trace : list (Oracle * Event)) (w : World) :
  joins_once trace init ->
  run trace init = Some w ->
  (forall h roomCode1 roomCode2 room1 room2,
      rooms w !! roomCode1 = Some room1 ->
      rooms w !! roomCode2 = Some room2 ->
      occupies h room1 -> occupies h room2 -> roomCode1 = roomCode2) /\
  (forall roomCode room,
      rooms w !! roomCode = Some room ->
      NoDup (clients room) /\
      (forall h, sender room = Some h -> h ∉ clients room)).
Proof.
  intros Hj Hrun. split.
  - assert (Hreach : reachable w) by (exists trace; exact Hrun).
    apply reachable_only_secret in Hreach as [Hr _].
    intros h rc1 rc2 room1 room2 E1 E2 _ _.
    rewrite (Hr rc1), (Hr rc2) by eauto. reflexivity.
  - assert (Hinv : roles_consistent w).
    { eapply (run_joins_once_invariant roles_consistent); [|idtac|exact Hj|exact Hrun].
      - intros fails e w1 w2. apply roles_consistent_step.
      - intros rc room H. cbn in H. rewrite lookup_empty in H. discriminate. }
    intros rc room E. destruct (Hinv _ _ E) as (Hs & Hcl & Hnd).
    split; [exact Hnd|]. intros h Hsender Hin.
    specialize (Hs h Hsender). specialize (Hcl h Hin). congruence.
Qed.

Lemma C2_witness :
  joins_once joins_then_leave init /\
  run joins_then_leave init = Some (after joins_then_leave) /\
  rooms (after joins_then_leave) !! PRANK_ROOM_CODE = Some (mkRoom (Some 0) [2]) /\
  NoDup [2] /\ 0 ∉ [2].
Proof.
  assert (Hj : joins_once joins_then_leave init).
  { vm_compute. repeat split; intros; reflexivity. }
  assert (Hrun : run joins_then_leave init = Some (after joins_then_leave)).
  { vm_compute. reflexivity. }
  assert (E : rooms (after joins_then_leave) !! PRANK_ROOM_CODE = Some (mkRoom (Some 0) [2])).
  { vm_compute. reflexivity. }
  destruct (C2_handles_unique_when_joining_once joins_then_leave _ Hj Hrun) as [_ H].
  destruct (H _ _ E) as [Hnd Hs].
  split; [exact Hj|]. split; [exact Hrun|]. split; [exact E|].
  split; [exact Hnd|]. apply Hs. reflexivity.
Defined.

(** C1 as stated fails: a connection that joined as sender sends
    [client_join] with the secret; the message is accepted, the session
    becomes a client session and the socket is added to the clients while it
    is still the sender of the room. *)
Lemma C1_counterexample :
  reachable sender0_alone /\
  clientInfo sender0_alone !! 0 = Some (mkClientInfo role_sender PRANK_ROOM_CODE None) /\
  rooms sender0_alone !! PRANK_ROOM_CODE = Some (mkRoom (Some 0) []) /\
  step all_ok (Message 0 (client_join PRANK_ROOM_CODE)) sender0_alone =
    Some sender0_rejoined_as_client /\
  clientInfo sender0_rejoined_as_client !! 0 =
    Some (mkClientInfo role_client PRANK_ROOM_CODE (Some 0)) /\
  rooms sender0_rejoined_as_client !! PRANK_ROOM_CODE = Some (mkRoom (Some 0) [0]) /\
  log sender0_rejoined_as_client =
    log sender0_alone ++ [mkAttempt 0 connected true;
                          mkAttempt 0 (client_count 1) true;
                          mkAttempt 0 (target_acquired 1) true].
Proof.
  split.
  { unfold sender0_alone. eapply reachable_after. vm_compute. reflexivity. }
  repeat split; vm_compute; reflexivity.
Qed.

(** C1, amended: on a connection whose session is already set, a further
    [sender_join] or [client_join] never changes the session's roomCode; with
    a roomCode other than the secret it is answered with one error and changes
    neither registry nor sessions; with the secret it is processed like a
    first join: the session's role becomes the role the message names and the
    socket is bound again in the registry, stored as [room.sender] by
    [sender_join] and appended once more to [room.clients] by
    [client_join]. *)
Theorem C1_rejoin_keeps_room_and_takes_latest_role
    (fails : Oracle) (ws : Handle) (fields : list (string * JSON)) (w : World)
    (info : ClientInfo) :
  reachable w ->
  clientInfo w !! ws = Some info ->
  field "type" fields = Some (JStr "sender_join") \/
  field "type" fields = Some (JStr "client_join") ->
  exists w',
    step fails (Message ws (Some (JObj fields))) w = Some w' /\
    ci_roomCode <$> clientInfo w' !! ws = Some (ci_roomCode info) /\
    (field "roomCode" fields <> Some (JStr PRANK_ROOM_CODE) ->
     rooms w' = rooms w /\ clientInfo w' = clientInfo w /\
     log w' = log w ++ [mkAttempt ws (error "Invalid room code") (negb (fails ws))]) /\
    (field "roomCode" fields = Some (JStr PRANK_ROOM_CODE) ->
     (field "type" fields = Some (JStr "sender_join") ->
      ci_type <$> clientInfo w' !! ws = Some role_sender /\
      controller w' PRANK_ROOM_CODE = Some ws /\
      targets w' PRANK_ROOM_CODE = targets w PRANK_ROOM_CODE) /\
     (field "type" fields = Some (JStr "client_join") ->
      ci_type <$> clientInfo w' !! ws = Some role_client /\
      controller w' PRANK_ROOM_CODE = controller w PRANK_ROOM_CODE /\
      targets w' PRANK_ROOM_CODE = targets w PRANK_ROOM_CODE ++ [ws])).
Proof.
  intros Hreach Hi Hty.
  assert (Hcode : ci_roomCode info = PRANK_ROOM_CODE).
  { apply reachable_only_secret in Hreach as [_ H]. eapply H, Hi. }
  destruct (valid_roomCode (field "roomCode" fields)) as [code|] eqn:Hv.
  - apply valid_roomCode_Some in Hv as [Hv _].
    destruct (step_message fails ws (Some (JObj fields)) w) as (w' & Hstep & Hcase).
    exists w'. split; [exact Hstep|].
    unfold join_role in Hcase.
    assert (Hv' : valid_roomCode (field "roomCode" fields) = Some PRANK_ROOM_CODE)
      by (rewrite Hv; reflexivity).
    rewrite Hv' in Hcase.
    destruct Hty as [Ht|Ht]; rewrite Ht in Hcase; cbn in Hcase;
      destruct Hcase as [l ->]; cbn [clientInfo sender_joined client_joined];
      rewrite lookup_insert_eq; cbn [fmap option_fmap option_map ci_roomCode ci_type].
    + split; [rewrite Hcode; reflexivity|]. split; [done|]. intros _. split.
      * intros _. split; [reflexivity|].
        unfold controller, targets at 1. cbn. rewrite lookup_insert_eq. done.
      * rewrite Ht. discriminate.
    + split; [rewrite Hcode; reflexivity|]. split; [done|]. intros _. split.
      * rewrite Ht. discriminate.
      * intros _. split; [reflexivity|].
        unfold controller at 1, targets at 1. cbn. rewrite lookup_insert_eq. done.
  - apply valid_roomCode_None in Hv.
    exists (logged w [attempt fails ws (error "Invalid room code")]). split.
    + unfold step, listener. destruct Hty as [Ht|Ht].
      * rewrite on_message_sender_join, try_swallow, handleSenderJoin_invalid, send_eq
          by done.
        reflexivity.
      * rewrite on_message_client_join, try_swallow, handleClientJoin_invalid, send_eq
          by done.
        reflexivity.
    + cbn [logged clientInfo rooms log]. rewrite Hi. split; [reflexivity|].
      split; [done|]. intros H. contradiction.
Qed.

Lemma C1_witness :
  exists w',
    step all_ok (Message 0 (client_join PRANK_ROOM_CODE)) sender0_alone = Some w' /\
    ci_roomCode <$> clientInfo w' !! 0 = Some PRANK_ROOM_CODE /\
    ci_type <$> clientInfo w' !! 0 = Some role_client /\
    targets w' PRANK_ROOM_CODE = [0].
Proof.
  assert (H : reachable sender0_alone)
    by (unfold sender0_alone; eapply reachable_after; vm_compute; reflexivity).
  destruct (C1_rejoin_keeps_room_and_takes_latest_role all_ok 0
              [("type", JStr "client_join"); ("roomCode", JStr PRANK_ROOM_CODE)]
              sender0_alone (mkClientInfo role_sender PRANK_ROOM_CODE None) H)
    as (w' & Hstep & Hroom & _ & Hacc).
  - reflexivity.
  - right. reflexivity.
  - destruct (Hacc eq_refl) as [_ Hclient].
    destruct (Hclient eq_refl) as (Hrole & _ & Htargets).
    exists w'. split; [exact Hstep|]. split; [exact Hroom|]. split; [exact Hrole|].
    exact Htargets.
Defined.

(** ** The single-client variant: what every listener preserves *)

Section Preserves.

Context {S : Type} (P : S -> Prop).

Lemma preserves_ret {A} (a : A) : preserves P (ret a).
Proof. intros w H. exact H. Qed.

Lemma preserves_throw {A} (e : Exn) : preserves P (@throw S A e).
Proof. intros w H. exact H. Qed.

Lemma preserves_lift {A} (r : Result A) : preserves P (lift r).
Proof. intros w H. exact H. Qed.

Lemma preserves_bind {A B} (m : Eff S A) (k : A -> Eff S B) :
  preserves P m -> (forall a, preserves P (k a)) -> preserves P (bind m k).
Proof.
  intros Hm Hk w H. unfold bind. specialize (Hm w H).
  destruct (m w) as [[a|e] w']; cbn in Hm; [apply Hk, Hm | exact Hm].
Qed.

Lemma preserves_try_catch {A} (m : Eff S A) (handler : Exn -> Eff S A) :
  preserves P m -> (forall e, preserves P (handler e)) -> preserves P (try_catch m handler).
Proof.
  intros Hm Hh w H. unfold try_catch. specialize (Hm w H).
  destruct (m w) as [[a|e] w']; cbn in Hm; [exact Hm | apply Hh, Hm].
Qed.

End Preserves.

Lemma single_send_keys fails h m : preserves Single.only_secret (Single.send fails h m).
Proof. intros w H. unfold Single.send. destruct (fails h); exact H. Qed.

Lemma single_rooms_has_keys rc : preserves Single.only_secret (Single.rooms_has rc).
Proof. intros w H. exact H. Qed.

Lemma single_rooms_get_keys rc : preserves Single.only_secret (Single.rooms_get rc).
Proof. intros w H. exact H. Qed.

Lemma single_get_clientInfo_keys ws : preserves Single.only_secret (Single.get_clientInfo ws).
Proof. intros w H. exact H. Qed.

Lemma single_set_clientInfo_keys ws info :
  preserves Single.only_secret (Single.set_clientInfo ws info).
Proof. intros w H. exact H. Qed.

Lemma single_room_read_keys {A} rc (f : Single.Room -> A) :
  preserves Single.only_secret (Single.room_read rc f).
Proof.
  intros w H. unfold Single.room_read. destruct (Single.rooms w !! rc); exact H.
Qed.

Lemma single_rooms_set_keys room :
  preserves Single.only_secret (Single.rooms_set PRANK_ROOM_CODE room).
Proof.
  intros w H rc. cbn. destruct (decide (rc = PRANK_ROOM_CODE)) as [->|Hne]; [done|].
  rewrite lookup_insert_ne by done. apply H.
Qed.

(** A write through [room] goes to a key that is already there. *)
Lemma single_room_write_keys rc upd :
  preserves Single.only_secret (Single.room_write rc upd).
Proof.
  intros w H. unfold Single.room_write.
  destruct (Single.rooms w !! rc) as [room|] eqn:E; [|exact H].
  intros k. cbn. destruct (decide (k = rc)) as [->|Hne].
  - intros _. apply H. eauto.
  - rewrite lookup_insert_ne by done. apply H.
Qed.

Lemma single_rooms_delete_keys rc :
  preserves Single.only_secret (Single.rooms_delete rc).
Proof.
  intros w H k. cbn. destruct (decide (k = rc)) as [->|Hne].
  - rewrite lookup_delete_eq. intros [x Hx]. discriminate.
  - rewrite lookup_delete_ne by done. apply H.
Qed.

Create HintDb single_keys.
#[local] Hint Resolve preserves_ret preserves_throw preserves_lift
  single_send_keys single_rooms_has_keys single_rooms_get_keys
  single_get_clientInfo_keys single_set_clientInfo_keys single_room_read_keys
  single_rooms_set_keys single_room_write_keys single_rooms_delete_keys : single_keys.

(** Walk down a handler: split sequences, branch on what is scrutinised,
    close the leaves with the primitives' lemmas. *)
Ltac keys :=
  repeat first
    [ solve [auto with single_keys]
    | apply preserves_bind; [|intros ?]
    | apply preserves_try_catch; [|intros ?]
    | match goal with
      | |- preserves _ (match ?x with _ => _ end) => destruct x
      end ].

Lemma single_handleSenderJoin_keys fails ws message :
  preserves Single.only_secret (Single.handleSenderJoin fails ws message).
Proof.
  unfold Single.handleSenderJoin. apply preserves_bind; [keys|]. intros roomCode.
  destruct (valid_roomCode roomCode) as [code|] eqn:Hv; [|keys].
  apply valid_roomCode_Some in Hv as [_ ->]. keys.
Qed.

Lemma single_handleClientJoin_keys fails ws message :
  preserves Single.only_secret (Single.handleClientJoin fails ws message).
Proof.
  unfold Single.handleClientJoin. apply preserves_bind; [keys|]. intros roomCode.
  destruct (valid_roomCode roomCode) as [code|] eqn:Hv; [|keys].
  apply valid_roomCode_Some in Hv as [_ ->]. keys.
Qed.

Lemma single_handlePrankMessage_keys fails ws message :
  preserves Single.only_secret (Single.handlePrankMessage fails ws message).
Proof. unfold Single.handlePrankMessage. keys. Qed.

Lemma single_handleDisconnection_keys fails info :
  preserves Single.only_secret (Single.handleDisconnection fails info).
Proof. unfold Single.handleDisconnection. keys. Qed.

Lemma single_listener_keys fails e :
  preserves Single.only_secret (Single.listener fails e).
Proof.
  destruct e as [ws data|ws]; cbn [Single.listener].
  - unfold Single.on_message, Single.JSON_parse, Single.dispatch.
    pose proof single_handleSenderJoin_keys.
    pose proof single_handleClientJoin_keys.
    pose proof single_handlePrankMessage_keys.
    keys.
  - unfold Single.on_close. pose proof single_handleDisconnection_keys. keys.
Qed.

Lemma single_reachable_only_secret w : Single.reachable w -> Single.only_secret w.
Proof.
  intros [trace Hrun]. revert Hrun.
  assert (H0 : Single.only_secret Single.init).
  { intros rc [room H]. cbn in H. rewrite lookup_empty in H. discriminate. }
  revert H0. generalize Single.init.
  induction trace as [|[fails e] rest IH]; intros w0 H0 Hrun.
  - cbn in Hrun. injection Hrun as <-. exact H0.
  - cbn in Hrun. unfold Single.step in Hrun.
    pose proof (single_listener_keys fails e w0 H0) as H1.
    destruct (Single.listener fails e w0) as [[[]|x] w1]; [|discriminate].
    exact (IH w1 H1 Hrun).
Qed.

(** C9: in every reachable state, of the multi-client server and of the
    single-client server alike, the registry holds at most one room, and the
    key of that room is the configured secret [PRANK_ROOM_CODE]: both join
    handlers compare [roomCode] with the secret before they create or touch a
    room, and no other key is ever inserted. *)
Theorem C9_registry_keyed_by_secret (w : World) (w1 : Single.World) :
  reachable w ->
  Single.reachable w1 ->
  (size (rooms w) <= 1 /\
   forall roomCode, is_Some (rooms w !! roomCode) -> roomCode = PRANK_ROOM_CODE) /\
  (size (Single.rooms w1) <= 1 /\
   forall roomCode, is_Some (Single.rooms w1 !! roomCode) -> roomCode = PRANK_ROOM_CODE).
Proof.
  intros Hreach Hreach1.
  apply reachable_only_secret in Hreach as [Hr _].
  apply single_reachable_only_secret in Hreach1.
  split; (split; [eapply single_key_size; eassumption | assumption]).
Qed.

Lemma C9_witness :
  reachable sender0_client1 /\
  Single.reachable Single.both_joined /\
  (size (rooms sender0_client1) <= 1 /\
   forall roomCode,
     is_Some (rooms sender0_client1 !! roomCode) -> roomCode = PRANK_ROOM_CODE) /\
  (size (Single.rooms Single.both_joined) <= 1 /\
   forall roomCode,
     is_Some (Single.rooms Single.both_joined !! roomCode) -> roomCode = PRANK_ROOM_CODE).
Proof.
  assert (H : reachable sender0_client1)
    by (unfold sender0_client1; eapply reachable_after; vm_compute; reflexivity).
  assert (H1 : Single.reachable Single.both_joined)
    by (exists Single.joins; vm_compute; reflexivity).
  split; [exact H|]. split; [exact H1|].
  exact (C9_registry_keyed_by_secret sender0_client1 Single.both_joined H H1).
Defined.


(** * Further properties of the multi-client server *)

Lemma on_message_ping fails ws fields w :
  field "type" fields = Some (JStr "ping") ->
  on_message fails ws (Some (JObj fields)) w =
  try_catch (send fails ws pong) (fun _ => ret tt) w.
Proof.
  intros Ht. unfold on_message, JSON_parse, try_catch, bind, ret, lift, prop, dispatch.
  rewrite Ht. reflexivity.
Qed.

(** X1: a [ping] on any connection, joined or not, is answered with exactly
    one [pong] to that connection; registry and sessions are untouched. *)
Theorem X1_ping_is_answered_with_pong
    (fails : Oracle) (ws : Handle) (fields : list (string * JSON)) (w : World) :
  field "type" fields = Some (JStr "ping") ->
  step fails (Message ws (Some (JObj fields))) w =
  Some (mkWorld (rooms w) (clientInfo w) (log w ++ [mkAttempt ws pong (negb (fails ws))])).
Proof.
  intros Ht. unfold step, listener.
  rewrite on_message_ping, try_swallow, send_eq by done. reflexivity.
Qed.

Lemma X1_witness :
  step all_ok (Message 5 (Some (JObj [("type", JStr "ping")]))) sender0_client1 =
  Some (mkWorld (rooms sender0_client1) (clientInfo sender0_client1)
                (log sender0_client1 ++ [mkAttempt 5 pong true])).
Proof.
  exact (X1_ping_is_answered_with_pong all_ok 5 [("type", JStr "ping")] sender0_client1
           eq_refl).
Defined.

(** X2: data that is not JSON, that parses to [null] or to a value that is
    not an object, or whose [type] is missing, not a string, or none of the
    four handled kinds, is dropped: nothing is sent and the world is exactly
    what it was. *)
Theorem X2_unhandled_message_is_dropped
    (fails : Oracle) (ws : Handle) (data : option JSON) (w : World) :
  (forall t, message_type data = Some t -> known_type t = false) ->
  step fails (Message ws data) w = Some w.
Proof.
  intros Hun. unfold step, listener.
  destruct data as [[| | | | |fields]|]; try reflexivity.
  unfold on_message, JSON_parse, try_catch, bind, ret, lift, prop, dispatch.
  cbn [message_type] in Hun.
  destruct (field "type" fields) as [[| | |t| |]|]; try reflexivity.
  specialize (Hun t eq_refl). unfold known_type in Hun.
  apply orb_false_elim in Hun as [Hun E4].
  apply orb_false_elim in Hun as [Hun E3].
  apply orb_false_elim in Hun as [E1 E2].
  rewrite E1, E2, E3, E4. reflexivity.
Qed.

Lemma X2_witness :
  step all_ok (Message 3 None) sender0_client1 = Some sender0_client1 /\
  step all_ok (Message 3 (Some JNull)) sender0_client1 = Some sender0_client1 /\
  step all_ok (Message 3 (Some (JObj [("type", JStr "hello")]))) sender0_client1 =
    Some sender0_client1.
Proof.
  split; [|split].
  - apply (X2_unhandled_message_is_dropped all_ok 3 None). intros t H. discriminate H.
  - apply (X2_unhandled_message_is_dropped all_ok 3 (Some JNull)). intros t H. discriminate H.
  - apply (X2_unhandled_message_is_dropped all_ok 3 (Some (JObj [("type", JStr "hello")]))).
    intros t H. injection H as <-. reflexivity.
Defined.

(** X3: a [client_join] carrying the secret fetches the room or creates it,
    appends this socket to [room.clients] (without looking whether it is
    already there), records the session as client with its own socket, and
    sends [connected] to this socket; if that send did not throw and the room
    has a sender, the sender is sent [client_count] with the new length and,
    if that did not throw either, [target_acquired]. *)
Theorem X3_client_join_appends_and_notifies
    (fails : Oracle) (ws : Handle) (fields : list (string * JSON)) (w : World) :
  field "type" fields = Some (JStr "client_join") ->
  field "roomCode" fields = Some (JStr PRANK_ROOM_CODE) ->
  let cs := targets w PRANK_ROOM_CODE ++ [ws] in
  let n := length cs in
  exists w',
    step fails (Message ws (Some (JObj fields))) w = Some w' /\
    rooms w' = <[PRANK_ROOM_CODE := mkRoom (controller w PRANK_ROOM_CODE) cs]> (rooms w) /\
    clientInfo w' = <[ws := mkClientInfo role_client PRANK_ROOM_CODE (Some ws)]> (clientInfo w) /\
    log w' =
      log w ++
      if fails ws then [mkAttempt ws connected false]
      else match controller w PRANK_ROOM_CODE with
           | None => [mkAttempt ws connected true]
           | Some s =>
               if fails s
               then [mkAttempt ws connected true; mkAttempt s (client_count n) false]
               else [mkAttempt ws connected true; mkAttempt s (client_count n) true;
                     mkAttempt s (target_acquired n) true]
           end.
Proof.
  intros Ht Hc cs n. subst cs n. unfold step, listener.
  rewrite on_message_client_join, try_swallow, handleClientJoin_valid by done.
  destruct (fails ws) eqn:Ews.
  { eexists; split; [reflexivity|]. unfold client_joined. cbn [rooms clientInfo log]. done. }
  destruct (controller w PRANK_ROOM_CODE) as [s|] eqn:Es.
  - destruct (fails s) eqn:Efs; (eexists; split; [reflexivity|]);
      unfold client_joined; cbn [rooms clientInfo log]; rewrite ?Es; done.
  - eexists; split; [reflexivity|].
    unfold client_joined. cbn [rooms clientInfo log]. rewrite ?Es. done.
Qed.

Lemma X3_witness :
  exists w',
    step all_ok (Message 1 (client_join PRANK_ROOM_CODE)) sender0_alone = Some w' /\
    rooms w' = {[PRANK_ROOM_CODE := mkRoom (Some 0) [1]]} /\
    log w' = log sender0_alone ++
             [mkAttempt 1 connected true; mkAttempt 0 (client_count 1) true;
              mkAttempt 0 (target_acquired 1) true].
Proof.
  destruct (X3_client_join_appends_and_notifies all_ok 1
              [("type", JStr "client_join"); ("roomCode", JStr PRANK_ROOM_CODE)]
              sender0_alone eq_refl eq_refl) as (w' & Hstep & Hrooms & _ & Hlog).
  exists w'. split; [exact Hstep|]. split; [|exact Hlog].
  rewrite Hrooms. vm_compute. reflexivity.
Defined.

(** X4: when a connection that joined as sender closes, the sender slot of
    its room is cleared, whichever socket it holds; every client of the room is
    sent [sender_disconnected] once, in order, a send that throws not stopping
    the others; the room is deleted if it has no client and kept otherwise.
    The event always completes. *)
Theorem X4_sender_close_clears_slot_and_notifies
    (fails : Oracle) (ws : Handle) (w : World) (info : ClientInfo) (room : Room) :
  clientInfo w !! ws = Some info ->
  ci_type info = role_sender ->
  rooms w !! ci_roomCode info = Some room ->
  step fails (Close ws) w =
  Some (mkWorld
          (match clients room with
           | [] => delete (ci_roomCode info) (rooms w)
           | _ :: _ => <[ci_roomCode info := mkRoom None (clients room)]> (rooms w)
           end)
          (clientInfo w)
          (log w ++
           map (fun c => mkAttempt c sender_disconnected (negb (fails c))) (clients room))).
Proof.
  intros Hi Ht E. unfold step, listener, on_close, bind, get_clientInfo. rewrite Hi.
  rewrite (handleDisconnection_sender _ _ _ room) by done.
  unfold settle, attempt. cbn [sender clients]. destruct (clients room); reflexivity.
Qed.

Lemma X4_witness :
  step (fails_only 2) (Close 0) sender0_clients123 =
  Some (mkWorld {[PRANK_ROOM_CODE := mkRoom None [1; 2; 3]]}
                (clientInfo sender0_clients123)
                (log sender0_clients123 ++
                 [mkAttempt 1 sender_disconnected true;
                  mkAttempt 2 sender_disconnected false;
                  mkAttempt 3 sender_disconnected true])).
Proof.
  rewrite (X4_sender_close_clears_slot_and_notifies (fails_only 2) 0 sender0_clients123
             (mkClientInfo role_sender PRANK_ROOM_CODE None) (mkRoom (Some 0) [1; 2; 3])
             eq_refl eq_refl eq_refl).
  vm_compute. reflexivity.
Defined.

(** X5: the close of a connection that never joined, or whose room is no
    longer in the registry, changes nothing and sends nothing. *)
Theorem X5_close_without_room_is_silent
    (fails : Oracle) (ws : Handle) (w : World) :
  (forall info, clientInfo w !! ws = Some info -> rooms w !! ci_roomCode info = None) ->
  step fails (Close ws) w = Some w.
Proof.
  intros H. unfold step, listener, on_close, bind, get_clientInfo.
  destruct (clientInfo w !! ws) as [info|]; [|reflexivity].
  unfold handleDisconnection, bind, rooms_get. rewrite (H info eq_refl). reflexivity.
Qed.

Lemma X5_witness :
  step all_ok (Close 9) sender0_client1 = Some sender0_client1.
Proof.
  apply (X5_close_without_room_is_silent all_ok 9 sender0_client1).
  intros info H. discriminate H.
Defined.

(** X6: the sends of the close listener to the sender are not guarded: when
    a connection that joined as client closes while its room has a sender
    whose [send] throws, the exception leaves the listener and the process
    ends. *)
Theorem X6_client_close_with_failing_sender_is_uncaught
    (fails : Oracle) (ws : Handle) (w : World) (info : ClientInfo) (room : Room) (s : Handle) :
  clientInfo w !! ws = Some info ->
  ci_type info = role_client ->
  rooms w !! ci_roomCode info = Some room ->
  sender room = Some s ->
  fails s = true ->
  fst (on_close fails ws w) = Throw SendError /\
  step fails (Close ws) w = None.
Proof.
  intros Hi Ht E Hs Hf. unfold step, listener, on_close, bind, get_clientInfo. rewrite Hi.
  rewrite (handleDisconnection_client _ _ _ info room) by done.
  rewrite Hs, Hf. split; reflexivity.
Qed.

Lemma X6_witness :
  fst (on_close (fails_only 0) 1 sender0_client1) = Throw SendError /\
  step (fails_only 0) (Close 1) sender0_client1 = None.
Proof.
  exact (X6_client_close_with_failing_sender_is_uncaught (fails_only 0) 1 sender0_client1
           (mkClientInfo role_client PRANK_ROOM_CODE (Some 1)) (mkRoom (Some 0) [1]) 0
           eq_refl eq_refl eq_refl eq_refl eq_refl).
Defined.

(** X7: whatever sends throw, a prank message from a sender whose room has
    clients, with a payload the handler's log line accepts ([payload.type] can
    be read and converted to a string), makes one send per client, in the
    order of the array, and then
    one [prank_delivered] to the sender whose first number is the number of
    client sends that did not throw and whose second is the length of the
    array; registry and sessions are untouched and the event completes, also
    when the receipt itself cannot be sent. *)
Theorem X7_fanout_counts_successful_sends
    (fails : Oracle) (ws : Handle) (fields : list (string * JSON)) (w : World)
    (info : ClientInfo) (payload : JSON) :
  field "type" fields = Some (JStr "prank_message") ->
  field "payload" fields = Some payload ->
  log_line (Some payload) = Ok tt ->
  clientInfo w !! ws = Some info ->
  ci_type info = role_sender ->
  targets w (ci_roomCode info) <> [] ->
  let cs := targets w (ci_roomCode info) in
  step fails (Message ws (Some (JObj fields))) w =
  Some (mkWorld (rooms w) (clientInfo w)
          (log w ++
           map (fun c => mkAttempt c (prank_message (Some payload)) (negb (fails c))) cs ++
           [mkAttempt ws
              (prank_delivered (length (filter (fun c => fails c = false) cs)) (length cs))
              (negb (fails ws))])).
Proof.
  intros Ht Hp Hn Hi Hr Hcs cs. subst cs. unfold step, listener.
  rewrite on_message_prank_message, try_swallow by done.
  rewrite (handlePrankMessage_fanout _ _ _ _ info payload) by done.
  reflexivity.
Qed.

Lemma X7_witness :
  step (fails_only 1) (Message 0 (prank (JNum 7))) sender0_clients123 =
  Some (mkWorld (rooms sender0_clients123) (clientInfo sender0_clients123)
          (log sender0_clients123 ++
           [mkAttempt 1 (prank_message (Some (JNum 7))) false;
            mkAttempt 2 (prank_message (Some (JNum 7))) true;
            mkAttempt 3 (prank_message (Some (JNum 7))) true;
            mkAttempt 0 (prank_delivered 2 3) true])).
Proof.
  apply (X7_fanout_counts_successful_sends (fails_only 1) 0
           [("type", JStr "prank_message"); ("payload", JNum 7)] sender0_clients123
           (mkClientInfo role_sender PRANK_ROOM_CODE None) (JNum 7)).
  - reflexivity.
  - reflexivity.
  - reflexivity.
  - reflexivity.
  - reflexivity.
  - vm_compute. discriminate.
Defined.

Lemma room_eta (room : Room) : mkRoom (sender room) (clients room) = room.
Proof. destruct room; reflexivity. Qed.

(** X8: joining as client and leaving again restores the registry.  From a
    reachable world in which the socket is not yet a client, a [client_join]
    with the secret followed by the close of that connection (the
    notifications to a present sender not throwing) leaves [rooms] exactly as
    it was: the socket is removed again, and a room the join had to create is
    deleted. *)
Theorem X8_client_join_then_close_restores_registry
    (fails1 fails2 : Oracle) (ws : Handle) (fields : list (string * JSON)) (w : World) :
  reachable w ->
  field "type" fields = Some (JStr "client_join") ->
  field "roomCode" fields = Some (JStr PRANK_ROOM_CODE) ->
  ws ∉ targets w PRANK_ROOM_CODE ->
  (forall s, controller w PRANK_ROOM_CODE = Some s -> fails2 s = false) ->
  exists w1 w2,
    step fails1 (Message ws (Some (JObj fields))) w = Some w1 /\
    step fails2 (Close ws) w1 = Some w2 /\
    rooms w2 = rooms w.
Proof.
  intros Hreach Ht Hc Hnot Hok.
  destruct (step_message fails1 ws (Some (JObj fields)) w) as (w1 & Hstep1 & Hcase).
  unfold join_role in Hcase. rewrite Ht, Hc in Hcase.
  change (valid_roomCode _) with (Some PRANK_ROOM_CODE) in Hcase. cbn in Hcase.
  destruct Hcase as [l ->]. eexists. 
  assert (Hi : clientInfo (client_joined ws w l) !! ws =
               Some (mkClientInfo role_client PRANK_ROOM_CODE (Some ws)))
    by (cbn; apply lookup_insert_eq).
  assert (E : rooms (client_joined ws w l) !! PRANK_ROOM_CODE =
              Some (mkRoom (controller w PRANK_ROOM_CODE) (targets w PRANK_ROOM_CODE ++ [ws])))
    by (cbn; apply lookup_insert_eq).
  assert (Hclose := handleDisconnection_client fails2 ws
                      (mkClientInfo role_client PRANK_ROOM_CODE (Some ws)) _ _ _
                      eq_refl Hi E).
  cbn [ci_roomCode ci_ws clients sender] in Hclose.
  rewrite without_first in Hclose by exact Hnot. rewrite app_nil_r in Hclose.
  unfold step at 2. unfold listener, on_close, bind, get_clientInfo. rewrite Hi, Hclose.
  apply reachable_occupied in Hreach.
  unfold controller, targets in *.
  destruct (rooms w !! PRANK_ROOM_CODE) as [room|] eqn:Eroom.
  - destruct (sender room) as [s|] eqn:Es.
    + rewrite (Hok s eq_refl). eexists. split; [exact Hstep1|]. split; [reflexivity|].
      cbn. rewrite insert_insert_eq. apply insert_id. rewrite Eroom, <- Es, room_eta. done.
    + eexists. split; [exact Hstep1|]. split; [reflexivity|]. cbn.
      unfold settle. cbn [sender clients].
      destruct (clients room) as [|c cs] eqn:Ecs.
      * destruct (Hreach _ _ Eroom) as [H|H]; congruence.
      * rewrite insert_insert_eq. apply insert_id.
        rewrite Eroom, <- Es, <- Ecs, room_eta. done.
  - eexists. split; [exact Hstep1|]. split; [reflexivity|]. cbn.
    unfold settle. cbn [sender clients].
    rewrite delete_insert_eq. apply delete_id. exact Eroom.
Qed.

Lemma X8_witness :
  exists w1 w2,
    step all_ok (Message 4 (client_join PRANK_ROOM_CODE)) sender0_clients123 = Some w1 /\
    step all_ok (Close 4) w1 = Some w2 /\
    rooms w2 = rooms sender0_clients123.
Proof.
  apply (X8_client_join_then_close_restores_registry all_ok all_ok 4
           [("type", JStr "client_join"); ("roomCode", JStr PRANK_ROOM_CODE)]
           sender0_clients123).
  - unfold sender0_clients123. eapply reachable_after. vm_compute. reflexivity.
  - reflexivity.
  - reflexivity.
  - vm_compute. intros H. repeat (apply elem_of_cons in H as [H|H]; [discriminate H|]).
    apply elem_of_nil in H. exact H.
  - reflexivity.
Defined.

(** X9: a message never takes anything out of the registry: after any
    message event every room that existed still exists, its clients are
    still listed, in order, at the front of the array, and a sender slot that
    was set is still set. *)
Theorem X9_message_removes_nothing
    (fails : Oracle) (ws : Handle) (data : option JSON) (w : World)
    (roomCode : string) (room : Room) :
  rooms w !! roomCode = Some room ->
  exists w' room',
    step fails (Message ws data) w = Some w' /\
    rooms w' !! roomCode = Some room' /\
    clients room `prefix_of` clients room' /\
    (is_Some (sender room) -> is_Some (sender room')).
Proof.
  intros E. destruct (step_message fails ws data w) as (w' & Hstep & Hcase).
  exists w'. destruct (join_role data) as [[]|].
  - destruct Hcase as [l ->]. cbn. unfold targets.
    destruct (decide (roomCode = PRANK_ROOM_CODE)) as [->|Hne].
    + rewrite E. eexists. split; [exact Hstep|]. rewrite lookup_insert_eq.
      split; [reflexivity|]. cbn. split; [reflexivity|eauto].
    + exists room. split; [exact Hstep|]. rewrite lookup_insert_ne by done. done.
  - destruct Hcase as [l ->]. cbn. unfold targets, controller.
    destruct (decide (roomCode = PRANK_ROOM_CODE)) as [->|Hne].
    + rewrite E. eexists. split; [exact Hstep|]. rewrite lookup_insert_eq.
      split; [reflexivity|]. cbn. split; [apply prefix_app_r; reflexivity|done].
    + exists room. split; [exact Hstep|]. rewrite lookup_insert_ne by done. done.
  - destruct Hcase as [Hrooms _]. exists room. rewrite Hrooms. done.
Qed.

Lemma X9_witness :
  exists w' room',
    step all_ok (Message 0 (client_join PRANK_ROOM_CODE)) sender0_clients123 = Some w' /\
    rooms w' !! PRANK_ROOM_CODE = Some room' /\
    [1; 2; 3] `prefix_of` clients room' /\
    (is_Some (Some 0) -> is_Some (sender room')).
Proof.
  apply (X9_message_removes_nothing all_ok 0 (client_join PRANK_ROOM_CODE)
           sender0_clients123 PRANK_ROOM_CODE (mkRoom (Some 0) [1; 2; 3])).
  reflexivity.
Defined.

(** ** What an event adds to the log *)

Ltac no_prank :=
  let a := fresh "a" in let Ha := fresh "Ha" in let p := fresh "p" in
  let Hp := fresh "Hp" in
  intros a Ha [p Hp];
  repeat (apply elem_of_cons in Ha as [->|Ha]; [cbn in Hp; try discriminate Hp|]);
  try (apply elem_of_nil in Ha; destruct Ha).

Lemma logged_nothing w : w = logged w [].
Proof. unfold logged. rewrite app_nil_r. destruct w; reflexivity. Qed.

(** A message event appends to the log, and a payload it sends goes to a
    client listed when the message arrived. *)
Lemma message_log fails ws data w w' :
  step fails (Message ws data) w = Some w' ->
  exists l,
    log w' = log w ++ l /\
    forall a, a ∈ l -> is_prank a -> exists roomCode, to a ∈ targets w roomCode.
Proof.
  unfold step, listener. intros Hstep.
  assert (Hnone : forall w0, w0 = w' -> w0 = w ->
            exists l, log w' = log w ++ l /\
              forall a, a ∈ l -> is_prank a -> exists roomCode, to a ∈ targets w roomCode).
  { intros w0 <- ->. exists []. rewrite app_nil_r. split; [reflexivity|]. no_prank. }
  destruct data as [[| | | | |fields]|];
    try (injection Hstep as Hstep; eapply Hnone; [exact Hstep|reflexivity]).
  destruct (field "type" fields) as [[| | |t| |]|] eqn:Ht;
    try (unfold on_message, JSON_parse, try_catch, bind, ret, lift, prop, dispatch in Hstep;
         rewrite Ht in Hstep; injection Hstep as Hstep;
         eapply Hnone; [exact Hstep|reflexivity]).
  clear Hnone.
  destruct (String.eqb t "sender_join") eqn:E1.
  { apply String.eqb_eq in E1. subst t.
    rewrite on_message_sender_join, try_swallow in Hstep by done.
    injection Hstep as <-.
    destruct (valid_roomCode (field "roomCode" fields)) as [code|] eqn:Hv.
    - apply valid_roomCode_Some in Hv as [Hv _].
      rewrite handleSenderJoin_valid by done.
      destruct (fails ws); (eexists; split; [reflexivity|]); [no_prank|].
      destruct (0 <? _); no_prank.
    - apply valid_roomCode_None in Hv.
      rewrite handleSenderJoin_invalid, send_eq by done.
      eexists; split; [reflexivity|]. no_prank. }
  destruct (String.eqb t "client_join") eqn:E2.
  { apply String.eqb_eq in E2. subst t.
    rewrite on_message_client_join, try_swallow in Hstep by done.
    injection Hstep as <-.
    destruct (valid_roomCode (field "roomCode" fields)) as [code|] eqn:Hv.
    - apply valid_roomCode_Some in Hv as [Hv _].
      rewrite handleClientJoin_valid by done.
      destruct (fails ws); [eexists; split; [reflexivity|]; no_prank|].
      destruct (controller w PRANK_ROOM_CODE) as [s|];
        [|eexists; split; [reflexivity|]; no_prank].
      destruct (fails s); (eexists; split; [reflexivity|]); no_prank.
    - apply valid_roomCode_None in Hv.
      rewrite handleClientJoin_invalid, send_eq by done.
      eexists; split; [reflexivity|]. no_prank. }
  destruct (String.eqb t "prank_message") eqn:E3.
  { apply String.eqb_eq in E3. subst t.
    rewrite on_message_prank_message, try_swallow in Hstep by done.
    injection Hstep as <-.
    destruct (decide (ci_type <$> clientInfo w !! ws = Some role_sender)) as [Hs|Hs].
    - destruct (clientInfo w !! ws) as [info|] eqn:Hi; [|done].
      injection Hs as Hs.
      destruct (decide (targets w (ci_roomCode info) = [])) as [Hcs|Hcs].
      + rewrite (handlePrankMessage_no_targets _ _ _ _ info), send_eq by done.
        eexists; split; [reflexivity|]. no_prank.
      + destruct (log_line (field "payload" fields)) as [[]|e] eqn:Hline.
        * destruct (log_line_payload _ Hline) as [payload Hp].
          rewrite Hp in Hline.
          rewrite (handlePrankMessage_fanout _ _ _ _ info payload) by done.
          eexists; split; [reflexivity|].
          intros a Ha Hpr. apply elem_of_app in Ha as [Ha|Ha].
          -- apply list_elem_of_fmap in Ha as (c & -> & Hc).
             exists (ci_roomCode info). exact Hc.
          -- exfalso. revert a Ha Hpr. no_prank.
        * rewrite (handlePrankMessage_unlogged _ _ _ _ info e) by done.
          exists []. cbn. rewrite app_nil_r. split; [reflexivity|]. no_prank.
    - rewrite handlePrankMessage_not_sender, send_eq by done.
      eexists; split; [reflexivity|]. no_prank. }
  unfold on_message, JSON_parse, try_catch, bind, ret, lift, prop, dispatch in Hstep.
  rewrite Ht, E1, E2, E3 in Hstep.
  destruct (String.eqb t "ping").
  - rewrite send_eq in Hstep. destruct (fails ws); injection Hstep as <-;
      (eexists; split; [reflexivity|]); no_prank.
  - injection Hstep as <-. exists []. rewrite app_nil_r. split; [reflexivity|]. no_prank.
Qed.

(** A close event appends to the log, and never a payload. *)
Lemma close_log fails ws w w' :
  step fails (Close ws) w = Some w' ->
  exists l, log w' = log w ++ l /\ forall a, a ∈ l -> ~ is_prank a.
Proof.
  unfold step, listener, on_close, bind, get_clientInfo.
  destruct (clientInfo w !! ws) as [info|] eqn:Hi.
  - destruct (rooms w !! ci_roomCode info) as [room|] eqn:E.
    + destruct (ci_type info) eqn:Ht.
      * rewrite (handleDisconnection_sender _ _ _ room) by done.
        intros [= <-]. eexists; split; [reflexivity|].
        intros a Ha [p Hp]. apply list_elem_of_fmap in Ha as (c & -> & _).
        discriminate Hp.
      * rewrite (handleDisconnection_client _ _ _ info room) by done.
        destruct (sender room) as [s|].
        -- destruct (fails s); [discriminate|]. intros [= <-].
           eexists; split; [reflexivity|]. destruct (0 <? _); no_prank.
        -- intros [= <-]. exists []. cbn. rewrite app_nil_r. split; [reflexivity|]. no_prank.
    + unfold handleDisconnection, bind, rooms_get. rewrite E. intros [= <-].
      exists []. rewrite app_nil_r. split; [reflexivity|]. no_prank.
  - intros [= <-]. exists []. rewrite app_nil_r. split; [reflexivity|]. no_prank.
Qed.

Lemma members_joined_step fails e w w' :
  members_joined w -> step fails e w = Some w' -> members_joined w'.
Proof.
  intros Hinv Hstep. destruct e as [ws data|ws].
  - destruct (step_message fails ws data w) as (w1 & Hw1 & Hcase).
    rewrite Hstep in Hw1. injection Hw1 as <-.
    destruct (join_role data) as [[]|].
    + destruct Hcase as [l ->]. intros rc room h. cbn. unfold targets.
      destruct (decide (h = ws)) as [->|Hh]; [rewrite lookup_insert_eq; eauto|].
      rewrite (lookup_insert_ne _ ws h) by done.
      destruct (decide (rc = PRANK_ROOM_CODE)) as [->|Hne].
      * rewrite lookup_insert_eq. intros [= <-] [Hs|Hc].
        -- cbn in Hs. congruence.
        -- cbn in Hc. destruct (rooms w !! PRANK_ROOM_CODE) as [room|] eqn:E;
             [|by apply elem_of_nil in Hc].
           apply (Hinv _ _ _ E). right. exact Hc.
      * rewrite lookup_insert_ne by done. apply Hinv.
    + destruct Hcase as [l ->]. intros rc room h. cbn. unfold targets, controller.
      destruct (decide (h = ws)) as [->|Hh]; [rewrite lookup_insert_eq; eauto|].
      rewrite (lookup_insert_ne _ ws h) by done.
      destruct (decide (rc = PRANK_ROOM_CODE)) as [->|Hne].
      * rewrite lookup_insert_eq. intros [= <-] [Hs|Hc].
        -- cbn in Hs. destruct (rooms w !! PRANK_ROOM_CODE) as [room|] eqn:E; [|discriminate].
           apply (Hinv _ _ _ E). left. exact Hs.
        -- cbn in Hc. apply elem_of_app in Hc as [Hc|Hc].
           ++ destruct (rooms w !! PRANK_ROOM_CODE) as [room|] eqn:E;
                [|by apply elem_of_nil in Hc].
              apply (Hinv _ _ _ E). right. exact Hc.
           ++ apply list_elem_of_singleton in Hc. contradiction.
      * rewrite lookup_insert_ne by done. apply Hinv.
    + destruct Hcase as [Hrooms Hci]. unfold members_joined. rewrite Hrooms, Hci. exact Hinv.
  - apply step_close in Hstep as [Hrooms Hci]. unfold members_joined.
    rewrite Hrooms, Hci. unfold rooms_after_close.
    destruct (clientInfo w !! ws) as [info|]; [|exact Hinv].
    destruct (rooms w !! ci_roomCode info) as [room0|] eqn:E; [|exact Hinv].
    intros rc room h. destruct (decide (rc = ci_roomCode info)) as [->|Hne].
    + intros H. apply settle_lookup_eq in H as [-> _]. unfold departed.
      destruct (ci_type info); intros [Hs|Hc].
      * discriminate.
      * apply (Hinv _ _ _ E). right. exact Hc.
      * apply (Hinv _ _ _ E). left. exact Hs.
      * apply (Hinv _ _ _ E). right.
        eapply elem_of_sublist; [exact Hc|apply without_sublist].
    + rewrite settle_lookup_ne by done. apply Hinv.
Qed.

Lemma join_role_secret data role :
  join_role data = Some role ->
  exists fields,
    data = Some (JObj fields) /\
    (field "type" fields = Some (JStr "sender_join") \/
     field "type" fields = Some (JStr "client_join")) /\
    field "roomCode" fields = Some (JStr PRANK_ROOM_CODE).
Proof.
  unfold join_role. destruct data as [[| | | | |fields]|]; try discriminate.
  destruct (field "type" fields) as [[| | |t| |]|] eqn:Ht; try discriminate.
  destruct (valid_roomCode (field "roomCode" fields)) as [code|] eqn:Hv; [|discriminate].
  apply valid_roomCode_Some in Hv as [Hv _]. intros H. exists fields.
  split; [reflexivity|]. split; [|exact Hv]. rewrite Ht.
  destruct (String.eqb t "sender_join") eqn:E1.
  - apply String.eqb_eq in E1. subst t. left. reflexivity.
  - destruct (String.eqb t "client_join") eqn:E2; [|discriminate].
    apply String.eqb_eq in E2. subst t. right. reflexivity.
Qed.

Lemma presented_secret_app trace rest h :
  presented_secret trace h -> presented_secret (trace ++ rest) h.
Proof.
  intros (fails & fields & Hin & Hc). exists fails, fields. split; [|exact Hc].
  apply elem_of_app. left. exact Hin.
Qed.

Lemma run_isolation trace :
  forall w,
    run trace init = Some w ->
    members_joined w /\
    (forall h, is_Some (clientInfo w !! h) -> presented_secret trace h) /\
    (forall a, a ∈ log w -> is_prank a -> presented_secret trace (to a)).
Proof.
  induction trace as [|[fails e] trace IH] using rev_ind; intros w Hrun.
  - cbn in Hrun. injection Hrun as <-. split; [|split].
    + intros rc room h H. cbn in H. rewrite lookup_empty in H. discriminate.
    + intros h [x H]. cbn in H. rewrite lookup_empty in H. discriminate.
    + intros a H. cbn in H. apply elem_of_nil in H. destruct H.
  - rewrite run_app in Hrun. destruct (run trace init) as [w0|] eqn:E0; [|discriminate].
    cbn in Hrun. destruct (step fails e w0) as [w1|] eqn:Hstep; [|discriminate].
    injection Hrun as ->.
    destruct (IH w0 eq_refl) as (Hmem & Hses & Hlog).
    assert (Hses' : forall h, is_Some (clientInfo w !! h) ->
                              presented_secret (trace ++ [(fails, e)]) h).
    { destruct e as [ws data|ws].
      - destruct (step_message fails ws data w0) as (w1 & Hw1 & Hcase).
        rewrite Hstep in Hw1. injection Hw1 as <-.
        destruct (join_role data) as [role|] eqn:Hrole.
        + apply join_role_secret in Hrole as (fields & -> & Hc).
          assert (Hci : clientInfo w = <[ws := mkClientInfo role PRANK_ROOM_CODE
                          (match role with role_sender => None | role_client => Some ws end)]>
                          (clientInfo w0))
            by (destruct role; destruct Hcase as [l ->]; reflexivity).
          intros h. rewrite Hci. destruct (decide (h = ws)) as [->|Hne].
          * intros _. exists fails, fields. split; [|exact Hc].
            apply elem_of_app. right. apply list_elem_of_singleton. reflexivity.
          * rewrite lookup_insert_ne by done. intros H.
            apply presented_secret_app, Hses, H.
        + destruct Hcase as [_ Hci]. intros h. rewrite Hci. intros H.
          apply presented_secret_app, Hses, H.
      - apply step_close in Hstep as [_ Hci]. intros h. rewrite Hci. intros H.
        apply presented_secret_app, Hses, H. }
    split; [eapply members_joined_step; eauto|]. split; [exact Hses'|].
    intros a Ha Hpr. destruct e as [ws data|ws].
    + destruct (message_log _ _ _ _ _ Hstep) as (l & Hl & Hnew).
      rewrite Hl in Ha. apply elem_of_app in Ha as [Ha|Ha].
      * apply presented_secret_app, Hlog; assumption.
      * destruct (Hnew a Ha Hpr) as [rc Hin]. unfold targets in Hin.
        destruct (rooms w0 !! rc) as [room|] eqn:E; [|by apply elem_of_nil in Hin].
        apply presented_secret_app, Hses. apply (Hmem _ _ _ E). right. exact Hin.
    + destruct (close_log _ _ _ _ Hstep) as (l & Hl & Hnew).
      rewrite Hl in Ha. apply elem_of_app in Ha as [Ha|Ha].
      * apply presented_secret_app, Hlog; assumption.
      * destruct (Hnew a Ha Hpr).
Qed.

(** X10: a relayed payload is only ever sent to a connection that itself
    sent, earlier in the run, a message whose [roomCode] is the secret:
    whatever the other connections do, a socket that never presented the
    secret is never sent a [prank_message]. *)
Theorem X10_payload_only_to_connections_that_presented_secret
    (trace : list (Oracle * Event)) (w : World) (a : Attempt) :
  run trace init = Some w ->
  a ∈ log w ->
  is_prank a ->
  presented_secret trace (to a).
Proof.
  intros Hrun Ha Hpr. destruct (run_isolation trace w Hrun) as (_ & _ & H).
  exact (H a Ha Hpr).
Qed.

Lemma X10_witness :
  run relay_once init = Some (after relay_once) /\
  mkAttempt 1 (prank_message (Some (JStr "boo"))) true ∈ log (after relay_once) /\
  presented_secret relay_once 1.
Proof.
  assert (Hrun : run relay_once init = Some (after relay_once))
    by (vm_compute; reflexivity).
  assert (Hin : mkAttempt 1 (prank_message (Some (JStr "boo"))) true ∈ log (after relay_once)).
  { vm_compute. do 5 right. left. }
  split; [exact Hrun|]. split; [exact Hin|].
  apply (X10_payload_only_to_connections_that_presented_secret relay_once _ _ Hrun Hin).
  eexists. reflexivity.
Defined.

(** X11: the sender slot is cleared by whoever joined as sender, not by the
    socket it holds.  When [a] joins as sender, then another connection [b]
    joins as sender and takes the slot, the close of [a] empties the slot
    although [b] is still connected with a sender session; the clients are as
    before (and the room is deleted if there is none). *)
Theorem X11_close_of_replaced_sender_unbinds_its_successor
    (f1 f2 f3 : Oracle) (a b : Handle) (w : World) :
  a <> b ->
  exists w',
    run [(f1, Message a (sender_join PRANK_ROOM_CODE));
         (f2, Message b (sender_join PRANK_ROOM_CODE));
         (f3, Close a)] w = Some w' /\
    controller w' PRANK_ROOM_CODE = None /\
    targets w' PRANK_ROOM_CODE = targets w PRANK_ROOM_CODE /\
    clientInfo w' !! b = Some (mkClientInfo role_sender PRANK_ROOM_CODE None).
Proof.
  intros Hab.
  destruct (step_message f1 a (sender_join PRANK_ROOM_CODE) w) as (w1 & Hs1 & Hc1).
  change (join_role (sender_join PRANK_ROOM_CODE)) with (Some role_sender) in Hc1.
  destruct Hc1 as [l1 ->].
  destruct (step_message f2 b (sender_join PRANK_ROOM_CODE) (sender_joined a w l1))
    as (w2 & Hs2 & Hc2).
  change (join_role (sender_join PRANK_ROOM_CODE)) with (Some role_sender) in Hc2.
  destruct Hc2 as [l2 ->].
  set (w2 := sender_joined b (sender_joined a w l1) l2) in *.
  assert (Hi : clientInfo w2 !! a = Some (mkClientInfo role_sender PRANK_ROOM_CODE None)).
  { unfold w2. cbn. rewrite lookup_insert_ne by done. apply lookup_insert_eq. }
  assert (E : rooms w2 !! PRANK_ROOM_CODE =
              Some (mkRoom (Some b) (targets w PRANK_ROOM_CODE))).
  { unfold w2. cbn. rewrite lookup_insert_eq. unfold targets at 1. cbn.
    rewrite lookup_insert_eq. reflexivity. }
  assert (Hclose := handleDisconnection_sender f3 a
                      (mkClientInfo role_sender PRANK_ROOM_CODE None) _ w2 eq_refl E).
  cbn [ci_roomCode clients] in Hclose.
  assert (Hb : clientInfo w2 !! b = Some (mkClientInfo role_sender PRANK_ROOM_CODE None))
    by (unfold w2; cbn; apply lookup_insert_eq).
  clearbody w2.
  remember (targets w PRANK_ROOM_CODE) as cs eqn:Hcs. clear Hcs.
  eexists. split.
  { cbn [run]. rewrite Hs1, Hs2. unfold step, listener, on_close, bind, get_clientInfo.
    rewrite Hi, Hclose. reflexivity. }
  unfold controller, targets, settle. cbn [rooms clientInfo sender clients].
  destruct cs as [|c cs].
  - rewrite lookup_delete_eq. done.
  - rewrite lookup_insert_eq. done.
Qed.

Lemma X11_witness :
  exists w',
    run [(all_ok, Message 7 (sender_join PRANK_ROOM_CODE));
         (all_ok, Message 8 (sender_join PRANK_ROOM_CODE));
         (all_ok, Close 7)] sender0_client1 = Some w' /\
    controller w' PRANK_ROOM_CODE = None /\
    targets w' PRANK_ROOM_CODE = [1] /\
    clientInfo w' !! 8 = Some (mkClientInfo role_sender PRANK_ROOM_CODE None).
Proof.
  apply (X11_close_of_replaced_sender_unbinds_its_successor all_ok all_ok all_ok 7 8
           sender0_client1).
  discriminate.
Defined.

Lemma single_key_shape {V : Type} (rs : gmap string V) k :
  (forall roomCode, is_Some (rs !! roomCode) -> roomCode = k) ->
  match rs !! k with
  | Some room => rs = {[k := room]}
  | None => rs = ∅
  end.
Proof.
  intros Hk. destruct (rs !! k) as [room|] eqn:E.
  - apply map_eq. intros i. destruct (decide (i = k)) as [->|Hne].
    + rewrite lookup_singleton_eq. exact E.
    + rewrite lookup_singleton_ne by done.
      destruct (rs !! i) eqn:Ei; [|done]. exfalso. apply Hne, Hk. eauto.
  - apply map_eq. intros i. rewrite lookup_empty.
    destruct (rs !! i) eqn:Ei; [|done].
    assert (i = k) as -> by (apply Hk; eauto). congruence.
Qed.

(** X12: the health check changes nothing and, in every reachable state,
    reports [activeRooms] 1 when the room has a sender or a client and 0
    otherwise; it never reports more than one room. *)
Theorem X12_health_counts_the_occupied_room (now : string) (w : World) :
  reachable w ->
  status (health now w) = "Prank Relay Server Online" /\
  timestamp (health now w) = now /\
  activeRooms (health now w) =
    match controller w PRANK_ROOM_CODE, targets w PRANK_ROOM_CODE with
    | None, [] => 0
    | _, _ => 1
    end.
Proof.
  intros Hreach. split; [reflexivity|]. split; [reflexivity|].
  pose proof (reachable_occupied _ Hreach) as Hocc.
  apply reachable_only_secret in Hreach as [Hr _].
  pose proof (single_key_shape _ _ Hr) as Hshape.
  unfold health, controller, targets. cbn [activeRooms].
  destruct (rooms w !! PRANK_ROOM_CODE) as [room|] eqn:E.
  - rewrite Hshape, map_size_singleton.
    destruct (Hocc _ _ E) as [H|H].
    + destruct (sender room); [reflexivity|done].
    + destruct (sender room); [reflexivity|]. destruct (clients room); [done|reflexivity].
  - rewrite Hshape, map_size_empty. reflexivity.
Qed.

Lemma X12_witness :
  reachable sender0_client1 /\
  activeRooms (health "2024-01-01T00:00:00.000Z" sender0_client1) = 1.
Proof.
  assert (H : reachable sender0_client1)
    by (unfold sender0_client1; eapply reachable_after; vm_compute; reflexivity).
  split; [exact H|].
  destruct (X12_health_counts_the_occupied_room "2024-01-01T00:00:00.000Z" _ H)
    as (_ & _ & Hn).
  exact Hn.
Defined.

(** * Further properties of the single-client server *)

Ltac sexec :=
  cbv beta iota delta
    [bind ret throw lift try_catch Single.rooms_has Single.rooms_get Single.rooms_set
     Single.rooms_delete Single.room_read Single.room_write Single.send
     Single.get_clientInfo Single.set_clientInfo Single.handleSenderJoin
     Single.handleClientJoin Single.handlePrankMessage Single.handleDisconnection
     Single.on_message Single.on_close Single.JSON_parse Single.dispatch
     Single.listener Single.step prop];
  cbn [Single.rooms Single.clientInfo Single.log Single.sender Single.client
       Single.ci_type Single.ci_roomCode negb].

Ltac ssteps :=
  repeat (progress (sexec; rewrite ?lookup_insert_eq, ?insert_insert_eq)).

(** X13: in the single-client server a [client_join] carrying the secret
    takes the client slot whatever it held: the room is fetched or created,
    [room.client] becomes this socket (a client already there is replaced,
    not told and not closed), the session is recorded, [connected] is sent to
    this socket and, if that send did not throw and the room has a sender,
    [target_acquired] is sent to the sender. *)
Theorem X13_single_client_join_takes_the_slot
    (fails : Oracle) (ws : Handle) (fields : list (string * JSON)) (w : Single.World) :
  field "type" fields = Some (JStr "client_join") ->
  field "roomCode" fields = Some (JStr PRANK_ROOM_CODE) ->
  Single.step fails (Message ws (Some (JObj fields))) w =
  Some (Single.mkWorld
          (<[PRANK_ROOM_CODE :=
               Single.mkRoom (single_sender w PRANK_ROOM_CODE) (Some ws)]> (Single.rooms w))
          (<[ws := Single.mkClientInfo role_client PRANK_ROOM_CODE]> (Single.clientInfo w))
          (Single.log w ++
           if fails ws then [Single.mkAttempt ws Single.connected false]
           else match single_sender w PRANK_ROOM_CODE with
                | None => [Single.mkAttempt ws Single.connected true]
                | Some s => [Single.mkAttempt ws Single.connected true;
                             Single.mkAttempt s Single.target_acquired (negb (fails s))]
                end)).
Proof.
  intros Ht Hc. unfold single_sender. sexec. rewrite Ht.
  change (String.eqb "client_join" "sender_join") with false.
  change (String.eqb "client_join" "client_join") with true. sexec. rewrite Hc.
  change (valid_roomCode _) with (Some PRANK_ROOM_CODE). sexec.
  destruct (Single.rooms w !! PRANK_ROOM_CODE) as [[s c]|] eqn:E.
  - rewrite bool_decide_eq_true_2 by eauto. rewrite ?E. ssteps.
    destruct (fails ws) eqn:Ews; ssteps; [reflexivity|].
    destruct s as [s|]; ssteps; [|reflexivity].
    destruct (fails s); ssteps; rewrite <- ?app_assoc; reflexivity.
  - rewrite bool_decide_eq_false_2 by (intros [? ?]; done). ssteps.
    destruct (fails ws) eqn:Ews; ssteps; reflexivity.
Qed.

Lemma X13_witness :
  Single.step all_ok (Message 2 (client_join PRANK_ROOM_CODE)) Single.both_joined =
  Some (Single.mkWorld
          {[PRANK_ROOM_CODE := Single.mkRoom (Some 0) (Some 2)]}
          (<[2 := Single.mkClientInfo role_client PRANK_ROOM_CODE]>
             (Single.clientInfo Single.both_joined))
          (Single.log Single.both_joined ++
           [Single.mkAttempt 2 Single.connected true;
            Single.mkAttempt 0 Single.target_acquired true])).
Proof.
  unfold client_join.
  rewrite (X13_single_client_join_takes_the_slot all_ok 2
             [("type", JStr "client_join"); ("roomCode", JStr PRANK_ROOM_CODE)]
             Single.both_joined eq_refl eq_refl).
  vm_compute. reflexivity.
Defined.

(** X14: in the single-client server the forwarding send is not guarded.  A
    prank message from a sender whose room has a client is sent to that
    client and then confirmed to the sender with [prank_delivered]; when the
    send to the client throws, the message listener swallows the exception
    and the sender is sent nothing at all, neither a receipt nor an error.
    Registry and sessions are untouched either way. *)
Theorem X14_single_relay_forwards_or_goes_silent
    (fails : Oracle) (ws : Handle) (fields : list (string * JSON)) (w : Single.World)
    (info : Single.ClientInfo) (room : Single.Room) (c : Handle) (payload : JSON) :
  field "type" fields = Some (JStr "prank_message") ->
  field "payload" fields = Some payload ->
  payload <> JNull ->
  Single.clientInfo w !! ws = Some info ->
  Single.ci_type info = role_sender ->
  Single.rooms w !! Single.ci_roomCode info = Some room ->
  Single.client room = Some c ->
  Single.step fails (Message ws (Some (JObj fields))) w =
  Some (Single.mkWorld (Single.rooms w) (Single.clientInfo w)
          (Single.log w ++
           if fails c
           then [Single.mkAttempt c (Single.prank_message (Some payload)) false]
           else [Single.mkAttempt c (Single.prank_message (Some payload)) true;
                 Single.mkAttempt ws Single.prank_delivered (negb (fails ws))])).
Proof.
  intros Ht Hp Hn Hi Hr E Hc. destruct info as [ty rc]. cbn in Hr, E. subst ty.
  destruct room as [s c']. cbn in Hc. subst c'.
  sexec. rewrite Ht.
  change (String.eqb "prank_message" "sender_join") with false.
  change (String.eqb "prank_message" "client_join") with false.
  change (String.eqb "prank_message" "prank_message") with true.
  sexec. rewrite Hi. sexec. rewrite E. sexec. rewrite Hp.
  destruct payload as [| | | | |pf]; [done|..]; ssteps; rewrite ?E; ssteps;
    (destruct (fails c) eqn:Ec; ssteps; [reflexivity|]);
    destruct (fails ws); ssteps; rewrite <- ?app_assoc; reflexivity.
Qed.

Lemma X14_witness :
  Single.step (fails_only 1) (Message 0 (prank (JStr "boo"))) Single.both_joined =
  Some (Single.mkWorld (Single.rooms Single.both_joined)
          (Single.clientInfo Single.both_joined)
          (Single.log Single.both_joined ++
           [Single.mkAttempt 1 (Single.prank_message (Some (JStr "boo"))) false])).
Proof.
  apply (X14_single_relay_forwards_or_goes_silent (fails_only 1) 0
           [("type", JStr "prank_message"); ("payload", JStr "boo")] Single.both_joined
           (Single.mkClientInfo role_sender PRANK_ROOM_CODE)
           (Single.mkRoom (Some 0) (Some 1)) 1 (JStr "boo")).
  - reflexivity.
  - reflexivity.
  - discriminate.
  - reflexivity.
  - reflexivity.
  - reflexivity.
  - reflexivity.
Defined.

Lemma single_on_close_eq fails ws w info room :
  Single.clientInfo w !! ws = Some info ->
  Single.rooms w !! Single.ci_roomCode info = Some room ->
  let roomCode := Single.ci_roomCode info in
  let room' := match Single.ci_type info with
               | role_sender => Single.mkRoom None (Single.client room)
               | role_client => Single.mkRoom (Single.sender room) None
               end in
  let peer := match Single.ci_type info with
              | role_sender => Single.client room
              | role_client => Single.sender room
              end in
  let notice := match Single.ci_type info with
                | role_sender => Single.sender_disconnected
                | role_client => Single.target_lost
                end in
  Single.on_close fails ws w =
  match peer with
  | Some p =>
      (if fails p then Throw SendError else Ok tt,
       Single.mkWorld (<[roomCode := room']> (Single.rooms w)) (Single.clientInfo w)
                      (Single.log w ++ [Single.mkAttempt p notice (negb (fails p))]))
  | None =>
      (Ok tt, Single.mkWorld (delete roomCode (Single.rooms w)) (Single.clientInfo w)
                             (Single.log w))
  end.
Proof.
  intros Hi E. destruct info as [ty rc]. destruct room as [s c]. cbn in E |- *.
  sexec. rewrite Hi. sexec. rewrite E.
  destruct ty; repeat (progress (ssteps; rewrite ?E)).
  - destruct c as [c|]; ssteps.
    + destruct (fails c); ssteps; reflexivity.
    + rewrite delete_insert_eq. reflexivity.
  - destruct s as [s|]; ssteps.
    + destruct (fails s); ssteps; reflexivity.
    + rewrite delete_insert_eq. reflexivity.
Qed.

(** X15: in the single-client server, when a joined connection closes, the
    slot of its role is cleared whichever socket it holds.  If the other slot
    is set, that peer is sent one notice ([sender_disconnected] to the client,
    [target_lost] to the sender) and the room stays; the send is not guarded,
    so if it throws the exception leaves the close listener and the process
    ends.  If the other slot is empty, nothing is sent and the room is
    deleted. *)
Theorem X15_single_close_clears_slot_and_tells_peer
    (fails : Oracle) (ws : Handle) (w : Single.World)
    (info : Single.ClientInfo) (room : Single.Room) :
  Single.clientInfo w !! ws = Some info ->
  Single.rooms w !! Single.ci_roomCode info = Some room ->
  let roomCode := Single.ci_roomCode info in
  let room' := match Single.ci_type info with
               | role_sender => Single.mkRoom None (Single.client room)
               | role_client => Single.mkRoom (Single.sender room) None
               end in
  let peer := match Single.ci_type info with
              | role_sender => Single.client room
              | role_client => Single.sender room
              end in
  let notice := match Single.ci_type info with
                | role_sender => Single.sender_disconnected
                | role_client => Single.target_lost
                end in
  Single.step fails (Close ws) w =
  match peer with
  | Some p =>
      if fails p then None
      else Some (Single.mkWorld (<[roomCode := room']> (Single.rooms w))
                                (Single.clientInfo w)
                                (Single.log w ++ [Single.mkAttempt p notice true]))
  | None =>
      Some (Single.mkWorld (delete roomCode (Single.rooms w)) (Single.clientInfo w)
                           (Single.log w))
  end.
Proof.
  intros Hi E roomCode room' peer notice.
  unfold Single.step. cbn [Single.listener].
  rewrite (single_on_close_eq fails ws w info room Hi E).
  fold roomCode room' peer notice.
  destruct peer as [p|]; [|reflexivity]. destruct (fails p); reflexivity.
Qed.

Lemma X15_witness :
  Single.step all_ok (Close 1) Single.both_joined =
  Some (Single.mkWorld {[PRANK_ROOM_CODE := Single.mkRoom (Some 0) None]}
                       (Single.clientInfo Single.both_joined)
                       (Single.log Single.both_joined ++
                        [Single.mkAttempt 0 Single.target_lost true])).
Proof.
  rewrite (X15_single_close_clears_slot_and_tells_peer all_ok 1 Single.both_joined
             (Single.mkClientInfo role_client PRANK_ROOM_CODE)
             (Single.mkRoom (Some 0) (Some 1)) eq_refl eq_refl).
  vm_compute. reflexivity.
Defined.

(** ** The single-client registry stays occupied *)

Lemma single_send_frame rs fails h m :
  preserves (fun w => Single.rooms w = rs) (Single.send fails h m).
Proof. intros w H. unfold Single.send. destruct (fails h); exact H. Qed.

Lemma single_rooms_get_frame rs rc :
  preserves (fun w => Single.rooms w = rs) (Single.rooms_get rc).
Proof. intros w H. exact H. Qed.

Lemma single_get_clientInfo_frame rs ws :
  preserves (fun w => Single.rooms w = rs) (Single.get_clientInfo ws).
Proof. intros w H. exact H. Qed.

Lemma single_room_read_frame {A} rs rc (f : Single.Room -> A) :
  preserves (fun w => Single.rooms w = rs) (Single.room_read rc f).
Proof.
  intros w H. unfold Single.room_read. destruct (Single.rooms w !! rc); exact H.
Qed.

Create HintDb single_frame.
#[local] Hint Resolve preserves_ret preserves_throw preserves_lift
  single_send_frame single_rooms_get_frame single_get_clientInfo_frame
  single_room_read_frame : single_frame.

Ltac frame :=
  repeat first
    [ solve [auto with single_frame]
    | apply preserves_bind; [|intros ?]
    | apply preserves_try_catch; [|intros ?]
    | match goal with
      | |- preserves _ (match ?x with _ => _ end) => destruct x
      end ].

(** A prank message never touches the single-client registry. *)
Lemma single_handlePrankMessage_frame rs fails ws message :
  preserves (fun w => Single.rooms w = rs) (Single.handlePrankMessage fails ws message).
Proof. unfold Single.handlePrankMessage. frame. Qed.

Lemma single_handleSenderJoin_rooms fails ws fields w :
  field "roomCode" fields = Some (JStr PRANK_ROOM_CODE) ->
  Single.rooms (snd (Single.handleSenderJoin fails ws (Some (JObj fields)) w)) =
  <[PRANK_ROOM_CODE := Single.mkRoom (Some ws) (single_client w PRANK_ROOM_CODE)]>
    (Single.rooms w).
Proof.
  intros Hc. unfold single_client. sexec. rewrite Hc.
  change (valid_roomCode _) with (Some PRANK_ROOM_CODE). sexec.
  destruct (Single.rooms w !! PRANK_ROOM_CODE) as [[s c]|] eqn:E.
  - rewrite bool_decide_eq_true_2 by eauto. rewrite ?E. ssteps.
    destruct c; ssteps; destruct (fails ws); ssteps; reflexivity.
  - rewrite bool_decide_eq_false_2 by (intros [? ?]; done). ssteps.
    destruct (fails ws); ssteps; reflexivity.
Qed.

Lemma single_handleClientJoin_rooms fails ws fields w :
  field "roomCode" fields = Some (JStr PRANK_ROOM_CODE) ->
  Single.rooms (snd (Single.handleClientJoin fails ws (Some (JObj fields)) w)) =
  <[PRANK_ROOM_CODE := Single.mkRoom (single_sender w PRANK_ROOM_CODE) (Some ws)]>
    (Single.rooms w).
Proof.
  intros Hc. unfold single_sender. sexec. rewrite Hc.
  change (valid_roomCode _) with (Some PRANK_ROOM_CODE). sexec.
  destruct (Single.rooms w !! PRANK_ROOM_CODE) as [[s c]|] eqn:E.
  - rewrite bool_decide_eq_true_2 by eauto. rewrite ?E. ssteps.
    destruct (fails ws); ssteps; [reflexivity|].
    destruct s as [s|]; ssteps; [|reflexivity]. destruct (fails s); ssteps; reflexivity.
  - rewrite bool_decide_eq_false_2 by (intros [? ?]; done). ssteps.
    destruct (fails ws); ssteps; reflexivity.
Qed.

Lemma snd_try_swallow {S : Type} (m : Eff S unit) (w : S) :
  snd (try_catch m (fun _ => ret tt) w) = snd (m w).
Proof. unfold try_catch, ret. destruct (m w) as [[[]|e] w']; reflexivity. Qed.

(** What a message can do to the single-client registry: nothing, or bind
    the room of the secret to a room with a socket in it. *)
Lemma single_message_rooms fails ws data w :
  let w' := snd (Single.on_message fails ws data w) in
  Single.rooms w' = Single.rooms w \/
  exists room,
    Single.rooms w' = <[PRANK_ROOM_CODE := room]> (Single.rooms w) /\
    (Single.sender room <> None \/ Single.client room <> None).
Proof.
  cbv zeta. unfold Single.on_message. rewrite snd_try_swallow.
  destruct data as [[| | | | |fields]|]; try (left; reflexivity).
  unfold Single.JSON_parse, bind, ret, lift, prop, Single.dispatch.
  destruct (field "type" fields) as [[| | |t| |]|] eqn:Ht; try (left; reflexivity).
  destruct (String.eqb t "sender_join") eqn:E1.
  { destruct (valid_roomCode (field "roomCode" fields)) as [code|] eqn:Hv.
    - apply valid_roomCode_Some in Hv as [Hv _]. right. eexists. split.
      + apply single_handleSenderJoin_rooms. exact Hv.
      + left. discriminate.
    - left. unfold Single.handleSenderJoin, bind, lift, prop. rewrite Hv.
      apply (single_send_frame (Single.rooms w)). reflexivity. }
  destruct (String.eqb t "client_join") eqn:E2.
  { destruct (valid_roomCode (field "roomCode" fields)) as [code|] eqn:Hv.
    - apply valid_roomCode_Some in Hv as [Hv _]. right. eexists. split.
      + apply single_handleClientJoin_rooms. exact Hv.
      + right. discriminate.
    - left. unfold Single.handleClientJoin, bind, lift, prop. rewrite Hv.
      apply (single_send_frame (Single.rooms w)). reflexivity. }
  left. destruct (String.eqb t "prank_message").
  { apply (single_handlePrankMessage_frame (Single.rooms w)). reflexivity. }
  destruct (String.eqb t "ping"); [|reflexivity].
  apply (single_send_frame (Single.rooms w)). reflexivity.
Qed.

Lemma single_occupied_step fails e w w' :
  single_occupied w -> Single.step fails e w = Some w' -> single_occupied w'.
Proof.
  intros Hocc Hstep. unfold Single.step in Hstep.
  assert (Hw : w' = snd (Single.listener fails e w))
    by (destruct (Single.listener fails e w) as [[[]|x] w1]; [|discriminate];
        injection Hstep as <-; reflexivity).
  subst w'. clear Hstep. destruct e as [ws data|ws]; cbn [Single.listener].
  - destruct (single_message_rooms fails ws data w) as [Hsame|(room & Hins & Hroom)].
    + unfold single_occupied. rewrite Hsame. exact Hocc.
    + unfold single_occupied. rewrite Hins. intros rc room0.
      destruct (decide (rc = PRANK_ROOM_CODE)) as [->|Hne].
      * rewrite lookup_insert_eq. intros [= <-]. exact Hroom.
      * rewrite lookup_insert_ne by done. apply Hocc.
  - destruct (Single.clientInfo w !! ws) as [info|] eqn:Hi.
    + destruct (Single.rooms w !! Single.ci_roomCode info) as [room|] eqn:E.
      * rewrite (single_on_close_eq fails ws w info room Hi E).
        destruct (Single.ci_type info).
        -- destruct (Single.client room) as [c|] eqn:Ec; cbn [snd].
           ++ intros rc room0. cbn [Single.rooms].
              destruct (decide (rc = Single.ci_roomCode info)) as [->|Hne].
              ** rewrite lookup_insert_eq. intros [= <-]. right. cbn. discriminate.
              ** rewrite lookup_insert_ne by done. apply Hocc.
           ++ intros rc room0. cbn [Single.rooms].
              destruct (decide (rc = Single.ci_roomCode info)) as [->|Hne].
              ** rewrite lookup_delete_eq. discriminate.
              ** rewrite lookup_delete_ne by done. apply Hocc.
        -- destruct (Single.sender room) as [s|] eqn:Es; cbn [snd].
           ++ intros rc room0. cbn [Single.rooms].
              destruct (decide (rc = Single.ci_roomCode info)) as [->|Hne].
              ** rewrite lookup_insert_eq. intros [= <-]. left. cbn. discriminate.
              ** rewrite lookup_insert_ne by done. apply Hocc.
           ++ intros rc room0. cbn [Single.rooms].
              destruct (decide (rc = Single.ci_roomCode info)) as [->|Hne].
              ** rewrite lookup_delete_eq. discriminate.
              ** rewrite lookup_delete_ne by done. apply Hocc.
      * unfold Single.on_close, bind, Single.get_clientInfo. rewrite Hi.
        unfold Single.handleDisconnection, bind, Single.rooms_get. rewrite E. exact Hocc.
    + unfold Single.on_close, bind, Single.get_clientInfo. rewrite Hi. exact Hocc.
Qed.

(** X16: in every reachable state of the single-client server a room is in
    the registry exactly when its sender slot or its client slot is set: a
    room is created only by a join that fills a slot at once, and the close
    that empties the last slot deletes it. *)
Theorem X16_single_room_exists_iff_occupied (w : Single.World) (roomCode : string) :
  Single.reachable w ->
  is_Some (Single.rooms w !! roomCode) <->
  (single_sender w roomCode <> None \/ single_client w roomCode <> None).
Proof.
  intros [trace Hrun].
  assert (Hocc : single_occupied w).
  { revert Hrun.
    assert (H0 : single_occupied Single.init).
    { intros rc room H. cbn in H. rewrite lookup_empty in H. discriminate. }
    revert H0. generalize Single.init.
    induction trace as [|[fails e] rest IH]; intros w0 H0 Hrun.
    - cbn in Hrun. injection Hrun as <-. exact H0.
    - cbn in Hrun. destruct (Single.step fails e w0) as [w1|] eqn:Hstep; [|discriminate].
      exact (IH w1 (single_occupied_step _ _ _ _ H0 Hstep) Hrun). }
  unfold single_sender, single_client. split.
  - intros [room E]. rewrite E. apply (Hocc _ _ E).
  - destruct (Single.rooms w !! roomCode); [eauto|]. intros [H|H]; done.
Qed.

Lemma X16_witness :
  Single.reachable Single.both_joined /\
  (is_Some (Single.rooms Single.both_joined !! PRANK_ROOM_CODE) <->
   (single_sender Single.both_joined PRANK_ROOM_CODE <> None \/
    single_client Single.both_joined PRANK_ROOM_CODE <> None)).
Proof.
  assert (H : Single.reachable Single.both_joined)
    by (exists Single.joins; vm_compute; reflexivity).
  split; [exact H|].
  exact (X16_single_room_exists_iff_occupied Single.both_joined PRANK_ROOM_CODE H).
Defined.

(** X17: in the single-client server a [sender_join] carrying the secret
    fetches the room or creates it, stores this socket in [room.sender]
    whatever was there, records the session, and sends this socket
    [target_acquired] when the client slot is set and [waiting_for_target]
    when it is empty; no count is sent. *)
Theorem X17_single_sender_join_binds_and_reports
    (fails : Oracle) (ws : Handle) (fields : list (string * JSON)) (w : Single.World) :
  field "type" fields = Some (JStr "sender_join") ->
  field "roomCode" fields = Some (JStr PRANK_ROOM_CODE) ->
  Single.step fails (Message ws (Some (JObj fields))) w =
  Some (Single.mkWorld
          (<[PRANK_ROOM_CODE :=
               Single.mkRoom (Some ws) (single_client w PRANK_ROOM_CODE)]> (Single.rooms w))
          (<[ws := Single.mkClientInfo role_sender PRANK_ROOM_CODE]> (Single.clientInfo w))
          (Single.log w ++
           [Single.mkAttempt ws
              (match single_client w PRANK_ROOM_CODE with
               | Some _ => Single.target_acquired
               | None => Single.waiting_for_target
               end)
              (negb (fails ws))])).
Proof.
  intros Ht Hc. unfold single_client. sexec. rewrite Ht.
  change (String.eqb "sender_join" "sender_join") with true. sexec. rewrite Hc.
  change (valid_roomCode _) with (Some PRANK_ROOM_CODE). sexec.
  destruct (Single.rooms w !! PRANK_ROOM_CODE) as [[s c]|] eqn:E.
  - rewrite bool_decide_eq_true_2 by eauto. rewrite ?E. ssteps.
    destruct c; ssteps; destruct (fails ws); ssteps; reflexivity.
  - rewrite bool_decide_eq_false_2 by (intros [? ?]; done). ssteps.
    destruct (fails ws); ssteps; reflexivity.
Qed.

Lemma X17_witness :
  Single.step all_ok (Message 5 (sender_join PRANK_ROOM_CODE)) Single.both_joined =
  Some (Single.mkWorld
          {[PRANK_ROOM_CODE := Single.mkRoom (Some 5) (Some 1)]}
          (<[5 := Single.mkClientInfo role_sender PRANK_ROOM_CODE]>
             (Single.clientInfo Single.both_joined))
          (Single.log Single.both_joined ++
           [Single.mkAttempt 5 Single.target_acquired true])).
Proof.
  unfold sender_join.
  rewrite (X17_single_sender_join_binds_and_reports all_ok 5
             [("type", JStr "sender_join"); ("roomCode", JStr PRANK_ROOM_CODE)]
             Single.both_joined eq_refl eq_refl).
  vm_compute. reflexivity.
Defined.

(** X18: the sessions the multi-client server records are well formed in
    every reachable state: the [roomCode] of a session is the secret, a
    session recorded by [client_join] holds the socket of its own
    connection, so that the close listener looks for the closing socket
    itself, and a session recorded by [sender_join] holds none. *)
Theorem X18_sessions_are_well_formed (w : World) (h : Handle) (info : ClientInfo) :
  reachable w ->
  clientInfo w !! h = Some info ->
  ci_roomCode info = PRANK_ROOM_CODE /\
  ci_ws info = match ci_type info with
               | role_client => Some h
               | role_sender => None
               end.
Proof.
  intros [trace Hrun] Hi.
  assert (Hinv : forall h info, clientInfo w !! h = Some info ->
            info = mkClientInfo (ci_type info) PRANK_ROOM_CODE
                     (match ci_type info with
                      | role_client => Some h
                      | role_sender => None
                      end)).
  { revert Hrun. apply (run_invariant (fun w =>
      forall h info, clientInfo w !! h = Some info ->
        info = mkClientInfo (ci_type info) PRANK_ROOM_CODE
                 (match ci_type info with
                  | role_client => Some h
                  | role_sender => None
                  end))).
    - clear. intros fails e w w' Hinv Hstep. destruct e as [ws data|ws].
      + destruct (step_message fails ws data w) as (w1 & Hw1 & Hcase).
        rewrite Hstep in Hw1. injection Hw1 as <-.
        destruct (join_role data) as [[]|].
        * destruct Hcase as [l ->]. intros h info. cbn.
          destruct (decide (h = ws)) as [->|Hne].
          -- rewrite lookup_insert_eq. intros [= <-]. reflexivity.
          -- rewrite lookup_insert_ne by done. apply Hinv.
        * destruct Hcase as [l ->]. intros h info. cbn.
          destruct (decide (h = ws)) as [->|Hne].
          -- rewrite lookup_insert_eq. intros [= <-]. reflexivity.
          -- rewrite lookup_insert_ne by done. apply Hinv.
        * destruct Hcase as [_ Hci]. rewrite Hci. exact Hinv.
      + apply step_close in Hstep as [_ Hci]. rewrite Hci. exact Hinv.
    - intros h0 info0 H. cbn in H. rewrite lookup_empty in H. discriminate. }
  rewrite (Hinv h info Hi). cbn. done.
Qed.

Lemma X18_witness :
  reachable sender0_client1 /\
  ci_roomCode (mkClientInfo role_client PRANK_ROOM_CODE (Some 1)) = PRANK_ROOM_CODE /\
  ci_ws (mkClientInfo role_client PRANK_ROOM_CODE (Some 1)) = Some 1.
Proof.
  assert (H : reachable sender0_client1)
    by (unfold sender0_client1; eapply reachable_after; vm_compute; reflexivity).
  split; [exact H|].
  exact (X18_sessions_are_well_formed sender0_client1 1
           (mkClientInfo role_client PRANK_ROOM_CODE (Some 1)) H eq_refl).
Defined.

Lemma without_gone h (cs : list Handle) :
  NoDup cs -> h ∉ without (Some h) cs.
Proof.
  unfold without. induction cs as [|x cs IH]; intros Hnd.
  - cbn. apply not_elem_of_nil.
  - apply NoDup_cons in Hnd as [Hx Hnd]. specialize (IH Hnd).
    cbn [findIndex]. destruct (decide (x = h)) as [->|Hne].
    + rewrite bool_decide_eq_true_2 by reflexivity. exact Hx.
    + rewrite bool_decide_eq_false_2 by congruence.
      destruct (findIndex (Some h) cs) as [i|]; cbn.
      * unfold splice in *. cbn [take drop app].
        intros H. apply elem_of_cons in H as [H|H]; [congruence|]. exact (IH H).
      * intros H. apply elem_of_cons in H as [H|H]; [congruence|]. exact (IH H).
Qed.

(** X19: when connections join at most once, a client that leaves is gone:
    along a run in which each accepted join arrives on a connection that has
    not joined before, after the close of a connection that joined as client
    has completed, its socket is neither among the clients nor in the sender
    slot of any room. *)
Theorem X19_closed_client_is_in_no_room
    (trace : list (Oracle * Event)) (fails : Oracle) (ws : Handle) (w w' : World)
    (roomCode : string) :
  joins_once trace init ->
  run trace init = Some w ->
  ci_type <$> clientInfo w !! ws = Some role_client ->
  step fails (Close ws) w = Some w' ->
  (ws ∉ targets w' roomCode) /\ controller w' roomCode <> Some ws.
Proof.
  intros Hj Hrun Hrole Hstep.
  assert (Hinv : roles_consistent w).
  { eapply (run_joins_once_invariant roles_consistent); [|idtac|exact Hj|exact Hrun].
    - intros f e w1 w2. apply roles_consistent_step.
    - intros rc room H. cbn in H. rewrite lookup_empty in H. discriminate. }
  assert (Hreach : reachable w) by (exists trace; exact Hrun).
  pose proof (reachable_client_ws _ Hreach) as Hws.
  apply step_close in Hstep as [Hrooms _].
  unfold targets, controller. rewrite Hrooms. unfold rooms_after_close.
  destruct (clientInfo w !! ws) as [info|] eqn:Hi; [|discriminate].
  injection Hrole as Hrole. specialize (Hws ws info Hi Hrole).
  assert (Hold : forall rc room, rooms w !! rc = Some room ->
                   sender room <> Some ws).
  { intros rc room E Hs. destruct (Hinv _ _ E) as (Hsender & _ & _).
    specialize (Hsender ws Hs). rewrite Hi in Hsender. cbn in Hsender. congruence. }
  destruct (rooms w !! ci_roomCode info) as [room|] eqn:E.
  - destruct (decide (roomCode = ci_roomCode info)) as [->|Hne].
    + destruct (settle _ _ _ !! ci_roomCode info) as [room'|] eqn:E';
        [|split; [apply not_elem_of_nil|discriminate]].
      apply settle_lookup_eq in E' as [-> _]. unfold departed. rewrite Hrole, Hws. cbn.
      split; [|exact (Hold _ _ E)].
      apply without_gone. apply (Hinv _ _ E).
    + rewrite settle_lookup_ne by done.
      apply reachable_only_secret in Hreach as [Hr Hc].
      destruct (rooms w !! roomCode) as [room0|] eqn:E0;
        [|split; [apply not_elem_of_nil|discriminate]].
      exfalso. apply Hne. rewrite (Hr roomCode) by eauto.
      symmetry. eapply Hc, Hi.
  - apply reachable_only_secret in Hreach as [Hr Hc].
    destruct (rooms w !! roomCode) as [room0|] eqn:E0;
      [|split; [apply not_elem_of_nil|discriminate]].
    exfalso. rewrite (Hr roomCode) in E0 by eauto.
    rewrite (Hc ws info Hi) in E. congruence.
Qed.

Lemma X19_witness :
  joins_once three_joined init /\
  run three_joined init = Some (after three_joined) /\
  step all_ok (Close 1) (after three_joined) = Some (after joins_then_leave) /\
  (1 ∉ targets (after joins_then_leave) PRANK_ROOM_CODE) /\
  controller (after joins_then_leave) PRANK_ROOM_CODE <> Some 1.
Proof.
  assert (Hj : joins_once three_joined init).
  { vm_compute. repeat split; intros; reflexivity. }
  assert (Hrun : run three_joined init = Some (after three_joined))
    by (vm_compute; reflexivity).
  assert (Hstep : step all_ok (Close 1) (after three_joined) = Some (after joins_then_leave))
    by (vm_compute; reflexivity).
  split; [exact Hj|]. split; [exact Hrun|]. split; [exact Hstep|].
  apply (X19_closed_client_is_in_no_room three_joined all_ok 1 (after three_joined)
           (after joins_then_leave) PRANK_ROOM_CODE Hj Hrun); [reflexivity|exact Hstep].
Defined.

(** X20: a prank message from a joined sender whose room has a client is
    dropped without a trace whenever the handler's log line throws: not only
    when [payload] is missing or [null], but also when [payload.type] cannot
    be converted to a string by the template literal (an object with an own
    [toString] property, or an array holding one).  The exception is
    swallowed by the message listener and the world, log of sends included,
    is unchanged. *)
Theorem X20_payload_the_log_line_rejects_is_dropped
    (fails : Oracle) (ws : Handle) (fields : list (string * JSON)) (w : World)
    (info : ClientInfo) (e : Exn) :
  field "type" fields = Some (JStr "prank_message") ->
  clientInfo w !! ws = Some info ->
  ci_type info = role_sender ->
  targets w (ci_roomCode info) <> [] ->
  log_line (field "payload" fields) = Throw e ->
  step fails (Message ws (Some (JObj fields))) w = Some w.
Proof.
  intros Ht Hi Hr Hcs Hline. unfold step, listener.
  rewrite on_message_prank_message, try_swallow by done.
  rewrite (handlePrankMessage_unlogged _ _ _ _ info e) by done. reflexivity.
Qed.

Lemma X20_witness :
  step all_ok
       (Message 0 (prank (JObj [("type", JArr [JStr "a"; JObj [("toString", JNum 1)]])])))
       sender0_client1 =
  Some sender0_client1.
Proof.
  apply (X20_payload_the_log_line_rejects_is_dropped all_ok 0
           [("type", JStr "prank_message");
            ("payload", JObj [("type", JArr [JStr "a"; JObj [("toString", JNum 1)]])])]
           sender0_client1 (mkClientInfo role_sender PRANK_ROOM_CODE None) TypeError).
  - reflexivity.
  - reflexivity.
  - reflexivity.
  - vm_compute. discriminate.
  - reflexivity.
Defined.
